(** * epochcalc: a shallow embedding of [epoch_calculator.py]

    The program is a PyQt5 desktop utility: an epoch calculator form, a
    directory image viewer with a thumbnail cache, and a theme importer.
    Each Python class becomes a module below; widget fields become record
    fields, module-level globals ([image_cache], standard output) become
    fields of the process state, and what the program obtains from outside
    (directory listings, image files, text files) is read from an explicit
    [world] value that may differ from one call to the next.

    Text is modelled as [string] (8-bit characters).  [str.lower] is
    modelled on ASCII text; the lower case of a character outside ASCII is
    never made of letters of the extensions or of the dataset folder names
    alone, so the filters below agree with Python on such names too.  The
    built-in [int()], which reads Unicode digits and spaces, is a parameter
    [int] of everything that calls it; [Py.int] is [int()] on ASCII text,
    for the examples and for the statements about particular texts. *)

From Stdlib Require Import ZArith Ascii DecimalString DecimalNat.
From stdpp Require Import base tactics option list strings gmap relations.

Local Open Scope string_scope.

(** ** Python built-ins used by the program *)

Module Py.

(** [c.lower()] for one character *)
Definition lower_char (c : ascii) : ascii :=
  let n := Ascii.N_of_ascii c in
  if ((65 <=? n) && (n <=? 90))%N then Ascii.ascii_of_N (n + 32) else c.

(** [s.lower()] *)
Fixpoint lower (s : string) : string :=
  match s with
  | EmptyString => EmptyString
  | String c r => String (lower_char c) (lower r)
  end.

(** [s.endswith(suffix)] *)
Definition endswith (s suffix : string) : bool :=
  let n := String.length s in
  let k := String.length suffix in
  if (k <=? n)%nat then bool_decide (String.substring (n - k) k s = suffix) else false.

(** [s.endswith((suffix1, suffix2, ...))] *)
Definition endswith_any (s : string) (suffixes : list string) : bool :=
  existsb (endswith s) suffixes.

(** [any(...)] over a generator of booleans *)
Definition any {A} (f : A -> bool) (l : list A) : bool := existsb f l.

(** [str(n)] for a length *)
Definition str (n : nat) : string := NilZero.string_of_uint (Nat.to_uint n).

(** [os.path.join(a, b)] (posixpath, two arguments) *)
Definition path_join (a b : string) : string :=
  match b with
  | String "/" _ => b
  | _ =>
      if bool_decide (a = "") || endswith a "/" then a ++ b
      else a ++ "/" ++ b
  end.

(** *** [int(text)] in base 10, on ASCII text *)

(** [c.isspace()] for an ASCII character *)
Definition is_space (c : ascii) : bool :=
  let n := Ascii.N_of_ascii c in
  (((9 <=? n) && (n <=? 13)) || ((28 <=? n) && (n <=? 32)))%N.

(** The white space [int()] skips around the digits of an ASCII text:
    tab, line feed, vertical tab, form feed, carriage return and space,
    and not the separators 0x1c to 0x1f. *)
Definition is_int_space (c : ascii) : bool :=
  let n := Ascii.N_of_ascii c in
  (((9 <=? n) && (n <=? 13)) || (n =? 32))%N.

Definition is_digit (c : ascii) : bool :=
  let n := Ascii.N_of_ascii c in ((48 <=? n) && (n <=? 57))%N.

Definition digit_value (c : ascii) : Z := Z.of_N (Ascii.N_of_ascii c) - 48.

Fixpoint skip_spaces (s : string) : string :=
  match s with
  | String c r => if is_int_space c then skip_spaces r else s
  | EmptyString => s
  end.

(** The digit scan: [seen] says a digit was read, [prev_us] that the
    previous character was an underscore.  An underscore is accepted only
    between two digits. *)
Fixpoint scan_digits (seen prev_us : bool) (acc : Z) (s : string)
  : option (Z * string) :=
  match s with
  | String c r =>
      if is_digit c then scan_digits true false (10 * acc + digit_value c) r
      else if Ascii.eqb c "_" then
        if negb seen || prev_us then None else scan_digits seen true acc r
      else if seen && negb prev_us then Some (acc, s) else None
  | EmptyString => if seen && negb prev_us then Some (acc, s) else None
  end.

Fixpoint digit_count (s : string) : nat :=
  match s with
  | String c r => (if is_digit c then 1 else 0) + digit_count r
  | EmptyString => 0
  end.

(** [sys.get_int_max_str_digits()], as CPython 3.11 starts with *)
Definition max_str_digits : nat := 4300.

(** [int(text)] for a text of ASCII characters: [None] stands for the
    raised [ValueError], the only exception [int] raises on a string.  A
    text with more digits than the interpreter's limit is refused. *)
Definition int (text : string) : option Z :=
  let s := skip_spaces text in
  let '(negative, s) :=
    match s with
    | String "-" r => (true, r)
    | String "+" r => (false, r)
    | _ => (false, s)
    end in
  '(v, rest) ← scan_digits false false 0 s;
  if bool_decide (skip_spaces rest = "")
     && bool_decide (digit_count text <= max_str_digits) then
    Some (if negative then (- v)%Z else v)
  else None.

(** *** [a / b] on integers *)

(** [a / b] raises [OverflowError] when the quotient, rounded to the
    nearest binary64 number, is not finite: from [2^1024 - 2^970] on in
    absolute value. ([b] is positive wherever the program divides.) *)
Definition true_divide_overflows (a b : Z) : bool :=
  bool_decide ((2 ^ 1024 - 2 ^ 970) * Z.abs b <= Z.abs a)%Z.

End Py.

(** ** Text shown by a label

    Every label text of the program is a literal string except the result
    of a computation, [f"Optimal Epochs: {total_epochs:.2f}"], where
    [total_epochs] is the floating-point quotient of two integers.  The
    operands of that division are kept; the quotient's binary64 rounding
    and its rendering with two decimals are not modelled.  The label is
    set to such a text only when the division does not overflow. *)
Inductive label_text : Type :=
  | Text (s : string)
  | OptimalEpochs (dividend divisor : Z).

(** ** class EpochCalculator *)

Module EpochCalculator.

Record t : Type := mk {
  images_entry : string;
  repeats_entry : string;
  batch_entry : string;
  steps_entry : string;
  result_label : label_text
}.

(** [__init__]: the default steps are set before the [textChanged]
    signals are connected, so the result label keeps its initial text. *)
Definition init : t :=
  {| images_entry := ""; repeats_entry := ""; batch_entry := "";
     steps_entry := "2000"; result_label := Text "Optimal Epochs: " |}.

(** How the body of the [try] block ends: it sets the label, or raises
    [ValueError], which the handler catches, or raises [OverflowError],
    which it does not. *)
Inductive attempt : Type :=
  | Shown (txt : label_text)
  | ValueError
  | OverflowError.

(** [int(entry.text()) if entry.text() else default] *)
Definition entry_value (int : string -> option Z) (text : string)
  (default : Z) : option Z :=
  if bool_decide (text = "") then Some default else int text.

(** The body of the [try] block *)
Definition try_calculate (int : string -> option Z) (self : t) : attempt :=
  match entry_value int (images_entry self) 0 with
  | None => ValueError
  | Some images =>
  match entry_value int (repeats_entry self) 0 with
  | None => ValueError
  | Some repeats =>
  match entry_value int (batch_entry self) 0 with
  | None => ValueError
  | Some batch =>
  match entry_value int (steps_entry self) 2000 with
  | None => ValueError
  | Some steps =>
      if bool_decide (images > 0)%Z && bool_decide (repeats > 0)%Z
         && bool_decide (batch > 0)%Z
      then
        if Py.true_divide_overflows (steps * batch) (images * repeats)
        then OverflowError
        else Shown (OptimalEpochs (steps * batch) (images * repeats))
      else Shown (Text "Enter valid positive integers.")
  end end end end.

Definition set_result (self : t) (txt : label_text) : t :=
  {| images_entry := images_entry self; repeats_entry := repeats_entry self;
     batch_entry := batch_entry self; steps_entry := steps_entry self;
     result_label := txt |}.

(** [calculate_epochs]: when [OverflowError] leaves it, the label is as
    it was. *)
Definition calculate_epochs (int : string -> option Z) (self : t) : t :=
  match try_calculate int self with
  | Shown txt => set_result self txt
  | ValueError => set_result self (Text "Invalid input. Enter integers only.")
  | OverflowError => self
  end.

(** Whether an exception leaves [calculate_epochs] *)
Definition calculate_epochs_raises (int : string -> option Z) (self : t)
  : bool :=
  match try_calculate int self with
  | OverflowError => true
  | _ => false
  end.

Inductive field : Type := Images | Repeats | Batch | Steps.

Definition text_of (f : field) (self : t) : string :=
  match f with
  | Images => images_entry self
  | Repeats => repeats_entry self
  | Batch => batch_entry self
  | Steps => steps_entry self
  end.

Definition with_text (f : field) (txt : string) (self : t) : t :=
  match f with
  | Images =>
      {| images_entry := txt; repeats_entry := repeats_entry self;
         batch_entry := batch_entry self; steps_entry := steps_entry self;
         result_label := result_label self |}
  | Repeats =>
      {| images_entry := images_entry self; repeats_entry := txt;
         batch_entry := batch_entry self; steps_entry := steps_entry self;
         result_label := result_label self |}
  | Batch =>
      {| images_entry := images_entry self;
         repeats_entry := repeats_entry self; batch_entry := txt;
         steps_entry := steps_entry self;
         result_label := result_label self |}
  | Steps =>
      {| images_entry := images_entry self;
         repeats_entry := repeats_entry self;
         batch_entry := batch_entry self; steps_entry := txt;
         result_label := result_label self |}
  end.

(** [entry.setText(txt)], also what typing into the entry amounts to:
    [textChanged] is emitted, and [calculate_epochs] runs, only when the
    text differs from the current one. *)
Definition setText (int : string -> option Z) (f : field) (txt : string)
  (self : t) : t :=
  if bool_decide (text_of f self = txt) then self
  else calculate_epochs int (with_text f txt self).

(** Whether an exception leaves the slot that [setText] runs *)
Definition setText_raises (int : string -> option Z) (f : field)
  (txt : string) (self : t) : bool :=
  if bool_decide (text_of f self = txt) then false
  else calculate_epochs_raises int (with_text f txt self).

Definition update_image_count (int : string -> option Z) (image_count : nat)
  (self : t) : t :=
  setText int Images (Py.str image_count) self.

End EpochCalculator.

(** ** Module-level constants *)

Definition MAX_IMAGES_TO_DISPLAY : nat := 50.

Definition DATASET_FOLDER_NAMES : list string := ["AI"; "Dataset"; "DATASETS"].

(** ** Qt images

    A decoded image is null or has a size and pixel data; the pixel data
    are represented by a token naming the decoded content. *)

Module Qt.

Record bitmap : Type := mk_bitmap { width : Z; height : Z; content : N }.

Inductive QImage : Type := NullImage | Image (b : bitmap).
Inductive QPixmap : Type := NullPixmap | Pixmap (b : bitmap).

Definition image_isNull (i : QImage) : bool :=
  match i with NullImage => true | Image _ => false end.

Definition isNull (p : QPixmap) : bool :=
  match p with NullPixmap => true | Pixmap _ => false end.

(** [QSize.scaled(w, h, Qt.KeepAspectRatio)] *)
Definition scaled_size (wd ht w h : Z) : Z * Z :=
  if bool_decide (wd = 0 \/ ht = 0)%Z then (w, h)
  else
    let rw := (h * wd / ht)%Z in
    if bool_decide (rw <= w)%Z then (rw, h) else (w, (w * ht / wd)%Z).

(** [image.scaled(w, h, Qt.KeepAspectRatio)]: a null image stays null,
    and each side of the result is at least one pixel. *)
Definition scaled (i : QImage) (w h : Z) : QImage :=
  match i with
  | NullImage => NullImage
  | Image b =>
      if bool_decide (w <= 0 \/ h <= 0)%Z then NullImage
      else
        let '(nw, nh) := scaled_size (width b) (height b) w h in
        Image {| width := Z.max nw 1; height := Z.max nh 1;
                 content := content b |}
  end.

(** [QPixmap.fromImage(image)] *)
Definition fromImage (i : QImage) : QPixmap :=
  match i with NullImage => NullPixmap | Image b => Pixmap b end.

End Qt.

Import Qt.

(** ** The world outside the process

    What the file system answers at the moment of a call. [None] (or
    [inl]) stands for the exception the call raises. *)
Record world : Type := mk_world {
  path_exists : string -> bool;              (* os.path.exists *)
  isdir : string -> bool;                    (* os.path.isdir *)
  listdir : string -> option (list string);  (* os.listdir *)
  read_image : string -> QImage;
    (* QImageReader(path), setAutoTransform(True), read() *)
  read_text : string -> string + string
    (* open(path, 'r').read(); inl carries the exception's message *)
}.

(** ** class ImageLoaderThread *)

Module ImageLoaderThread.

Definition IMAGE_SUFFIXES : list string := [".png"; ".jpg"; ".jpeg"; ".bmp"].

(** The condition of the list comprehension in [run] *)
Definition qualifies (f : string) : bool :=
  Py.endswith_any (Py.lower f) IMAGE_SUFFIXES.

(** The list comprehension of [run], given the directory listing *)
Definition loaded_image_paths (directory : string) (names : list string)
  : list string :=
  map (Py.path_join directory) (filter (fun f => qualifies f = true) names).

(** [run]: the arguments of the one [image_loaded_signal.emit], or [None]
    when [os.listdir] raises and nothing is emitted. *)
Definition run (w : world) (directory : string)
  : option (list string * bool) :=
  names ← listdir w directory;
  let loaded := loaded_image_paths directory names in
  if bool_decide (MAX_IMAGES_TO_DISPLAY < length loaded) then
    Some (take MAX_IMAGES_TO_DISPLAY loaded, false)
  else
    Some (loaded, true).

End ImageLoaderThread.

(** ** Process state *)

(** A label placed in the grid by [addWidget(img_label, row, col)];
    [cell_path] is the path its click handler was bound to. *)
Record cell : Type := mk_cell {
  cell_pixmap : QPixmap;
  cell_path : string;
  cell_row : nat;
  cell_col : nat
}.

(** The fields of an [ImageViewer] instance. The program holds one
    loader thread, the latest, in [self.loader_thread]: starting a scan
    drops the thread before it, and Qt aborts the process if that thread is
    still running. [loader_threads] are the directories of the scans
    started whose signal has not been handled, oldest first. It has more
    than one element only when a scan was started before the signal of an
    earlier one was handled; the executions followed from there are those
    in which the earlier threads had returned from [run], their signals
    waiting in the event queue. This takes in every execution of the
    program and possibly more. *)
Record viewer : Type := mk_viewer {
  image_paths : list string;
  image_count_label : string;
  grid_layout : list cell;
  loader_threads : list string
}.

(** The globals, the widgets of the main window, and three traces: the
    lines printed, the paths on which [reader.read()] was called, and the
    exceptions that left a slot uncaught. The program installs no
    exception hook, and PyQt5 aborts the process on the first of these:
    the states of the process are those with no such exception, and the
    one in which it is raised. *)
Record process : Type := mk_process {
  image_cache : gmap string QPixmap;
  stdout : list string;
  reads : list string;
  unhandled : list string;
  epoch_calculator : EpochCalculator.t;
  image_viewer : viewer;
  styleSheet : string
}.

Definition raise_unhandled (exception : string) (p : process) : process :=
  {| image_cache := image_cache p; stdout := stdout p; reads := reads p;
     unhandled := unhandled p ++ [exception];
     epoch_calculator := epoch_calculator p;
     image_viewer := image_viewer p; styleSheet := styleSheet p |}.

Definition with_cache (c : gmap string QPixmap) (p : process) : process :=
  {| image_cache := c; stdout := stdout p; reads := reads p;
     unhandled := unhandled p; epoch_calculator := epoch_calculator p;
     image_viewer := image_viewer p; styleSheet := styleSheet p |}.

Definition print (line : string) (p : process) : process :=
  {| image_cache := image_cache p; stdout := stdout p ++ [line];
     reads := reads p; unhandled := unhandled p;
     epoch_calculator := epoch_calculator p;
     image_viewer := image_viewer p; styleSheet := styleSheet p |}.

Definition record_read (path : string) (p : process) : process :=
  {| image_cache := image_cache p; stdout := stdout p;
     reads := reads p ++ [path]; unhandled := unhandled p;
     epoch_calculator := epoch_calculator p;
     image_viewer := image_viewer p; styleSheet := styleSheet p |}.

Definition with_calculator (c : EpochCalculator.t) (p : process) : process :=
  {| image_cache := image_cache p; stdout := stdout p; reads := reads p;
     unhandled := unhandled p; epoch_calculator := c;
     image_viewer := image_viewer p; styleSheet := styleSheet p |}.

Definition with_viewer (v : viewer) (p : process) : process :=
  {| image_cache := image_cache p; stdout := stdout p; reads := reads p;
     unhandled := unhandled p; epoch_calculator := epoch_calculator p;
     image_viewer := v; styleSheet := styleSheet p |}.

Definition setStyleSheet (css : string) (p : process) : process :=
  {| image_cache := image_cache p; stdout := stdout p; reads := reads p;
     unhandled := unhandled p; epoch_calculator := epoch_calculator p;
     image_viewer := image_viewer p; styleSheet := css |}.

Definition with_paths (l : list string) (v : viewer) : viewer :=
  {| image_paths := l; image_count_label := image_count_label v;
     grid_layout := grid_layout v; loader_threads := loader_threads v |}.

Definition with_count_label (s : string) (v : viewer) : viewer :=
  {| image_paths := image_paths v; image_count_label := s;
     grid_layout := grid_layout v; loader_threads := loader_threads v |}.

Definition with_grid (g : list cell) (v : viewer) : viewer :=
  {| image_paths := image_paths v;
     image_count_label := image_count_label v;
     grid_layout := g; loader_threads := loader_threads v |}.

Definition with_threads (t : list string) (v : viewer) : viewer :=
  {| image_paths := image_paths v;
     image_count_label := image_count_label v;
     grid_layout := grid_layout v; loader_threads := t |}.

(** ** class ImageViewer *)

Module ImageViewer.

Definition init : viewer :=
  {| image_paths := []; image_count_label := "Total Images Found: 0";
     grid_layout := []; loader_threads := [] |}.

(** The body of the [try] block of [load_and_cache_image]. [inl] is the
    raised exception with its message; the call of [reader.read()] has
    happened in either case. *)
Definition try_load (w : world) (img_path : string) (p : process)
  : (string * process) + process :=
  let p := record_read img_path p in
  let image := read_image w img_path in
  if image_isNull image then inl ("Failed to load image", p)
  else
    let scaled_image := scaled image 1920 1080 in
    let pixmap := fromImage scaled_image in
    inr (with_cache (<[img_path := pixmap]> (image_cache p)) p).

(** [image_cache[img_path]] for a key that is present *)
Definition cached (p : process) (img_path : string) : QPixmap :=
  default NullPixmap (image_cache p !! img_path).

Definition load_and_cache_image (w : world) (img_path : string) (p : process)
  : QPixmap * process :=
  if bool_decide (image_cache p !! img_path = None) then
    match try_load w img_path p with
    | inr p => (cached p img_path, p)
    | inl (e, p) =>
        (NullPixmap,
         print ("Error loading image " ++ img_path ++ ": " ++ e) p)
    end
  else (cached p img_path, p).

Definition addWidget (c : cell) (p : process) : process :=
  with_viewer
    (with_grid (grid_layout (image_viewer p) ++ [c]) (image_viewer p)) p.

(** The [for] loop of [display_images], with its counters [row], [col] *)
Fixpoint display_loop (w : world) (paths : list string) (row col : nat)
  (p : process) : process :=
  match paths with
  | [] => p
  | img_path :: rest =>
      let '(pixmap, p) := load_and_cache_image w img_path p in
      if isNull pixmap then display_loop w rest row col p
      else
        let p :=
          addWidget {| cell_pixmap := pixmap; cell_path := img_path;
                       cell_row := row; cell_col := col |} p in
        let col := col + 1 in
        if bool_decide (5 <= col) then display_loop w rest (row + 1) 0 p
        else display_loop w rest row col p
  end.

Definition display_images (w : world) (p : process) : process :=
  display_loop w (image_paths (image_viewer p)) 0 0 p.

(** [clear_image_layout]: every widget of the grid is scheduled for
    deletion, which takes it out of the layout when control is back in
    the event loop, before a loader's signal is handled. *)
Definition clear_image_layout (p : process) : process :=
  with_viewer (with_grid [] (image_viewer p)) p.

(** [start_loading_images]: the list and the grid are emptied and a
    thread is started on [directory]. *)
Definition start_loading_images (directory : string) (p : process) : process :=
  let p := with_viewer (with_paths [] (image_viewer p)) p in
  let p := clear_image_layout p in
  with_viewer
    (with_threads (loader_threads (image_viewer p) ++ [directory])
       (image_viewer p)) p.

Definition on_directory_selected (SCRIPT_DIR selected_directory : string)
  (p : process) : process :=
  let full_path := Py.path_join SCRIPT_DIR selected_directory in
  start_loading_images full_path p.

(** [combo_box.currentText()] when the item of index [i] is current *)
Definition currentText (directories : list string) (i : nat) : string :=
  default "" (directories !! i).

(** [show_directory_selector_dialog]: the dialog runs until it is
    rejected. [clicks] lists, for each press of Ok before that, the index
    of the combo box's current item. *)
Definition show_directory_selector_dialog (SCRIPT_DIR : string)
  (directories : list string) (clicks : list nat) (p : process) : process :=
  foldl (fun p i => on_directory_selected SCRIPT_DIR
                      (currentText directories i) p) p clicks.

(** The condition of the list comprehension in
    [find_matching_dataset_dirs] *)
Definition matches_dataset (w : world) (directory d : string) : bool :=
  isdir w (Py.path_join directory d)
  && Py.any (fun name => bool_decide (Py.lower d = Py.lower name))
       DATASET_FOLDER_NAMES.

Definition find_matching_dataset_dirs (w : world) (directory : string)
  : option (list string) :=
  names ← listdir w directory;
  Some (filter (fun d => matches_dataset w directory d = true) names).

(** [load_images]; [None] when [os.listdir] raises. *)
Definition load_images (SCRIPT_DIR : string) (w : world) (directory : string)
  (clicks : list nat) (p : process) : option process :=
  if negb (path_exists w directory) then
    Some (with_viewer
            (with_count_label "Error: Directory does not exist."
               (image_viewer p)) p)
  else
    matching_dirs ← find_matching_dataset_dirs w directory;
    if bool_decide (matching_dirs <> []) then
      Some (show_directory_selector_dialog SCRIPT_DIR matching_dirs clicks p)
    else
      Some (start_loading_images directory p).

(** [browse_directory], where [folder_path] is what the directory dialog
    returned (empty when it was cancelled) *)
Definition browse_directory (SCRIPT_DIR : string) (w : world)
  (folder_path : string) (clicks : list nat) (p : process) : option process :=
  if bool_decide (folder_path <> "") then
    load_images SCRIPT_DIR w folder_path clicks p
  else Some p.

Definition count_label (paths : list string) (all_loaded : bool) : string :=
  if negb all_loaded then
    "Too many images. Displaying " ++ Py.str MAX_IMAGES_TO_DISPLAY
    ++ " images."
  else "Total Images Found: " ++ Py.str (length paths).

(** [update_images]. When [OverflowError] leaves [calculate_epochs],
    run by the change of the images entry, the handler stops there: the
    list, the status label and the entry are set, and nothing is
    displayed. *)
Definition update_images (int : string -> option Z) (w : world)
  (paths : list string) (all_loaded : bool) (p : process) : process :=
  let p := with_viewer (with_paths paths (image_viewer p)) p in
  let p := with_viewer
             (with_count_label
                (count_label (image_paths (image_viewer p)) all_loaded)
                (image_viewer p)) p in
  let image_count := length (image_paths (image_viewer p)) in
  let form := epoch_calculator p in
  let p := with_calculator
             (EpochCalculator.update_image_count int image_count form) p in
  if EpochCalculator.setText_raises int EpochCalculator.Images
       (Py.str image_count) form
  then raise_unhandled "OverflowError" p
  else display_images w p.

End ImageViewer.

(** ** class MainWindow *)

Module MainWindow.

Definition init : process :=
  {| image_cache := ∅; stdout := []; reads := []; unhandled := [];
     epoch_calculator := EpochCalculator.init;
     image_viewer := ImageViewer.init; styleSheet := "" |}.

Definition apply_custom_theme (custom_css : string) (p : process) : process :=
  setStyleSheet custom_css p.

(** [import_theme], where [file_path] is what the file dialog returned *)
Definition import_theme (w : world) (file_path : string) (p : process)
  : process :=
  if bool_decide (file_path <> "") then
    match read_text w file_path with
    | inr custom_css => apply_custom_theme custom_css p
    | inl e => print ("Error importing theme: " ++ e) p
    end
  else p.

End MainWindow.

(** ** The event loop

    What the process does between start and exit: one handler per event,
    each run against the world of its moment. *)

Inductive event : Type :=
  | EntryEdited (f : EpochCalculator.field) (txt : string)
  | BrowseClicked (folder_path : string) (clicks : list nat)
  | LoaderFinished (n : nat)
  | ThumbnailClicked (n : nat)
  | ImportThemeClicked (file_path : string).

(** The loader thread of index [n] runs and its signal is handled. When
    [os.listdir] raises in the thread, the exception is not caught and the
    process is aborted. *)
Definition loader_finished (int : string -> option Z) (w : world) (n : nat)
  (p : process) : option process :=
  directory ← loader_threads (image_viewer p) !! n;
  let p := with_viewer
             (with_threads (delete n (loader_threads (image_viewer p)))
                (image_viewer p)) p in
  '(paths, all_loaded) ← ImageLoaderThread.run w directory;
  Some (ImageViewer.update_images int w paths all_loaded p).

(** Typing [txt] into the entry [f] *)
Definition entry_edited (int : string -> option Z)
  (f : EpochCalculator.field) (txt : string) (p : process) : process :=
  let form := epoch_calculator p in
  let p := with_calculator (EpochCalculator.setText int f txt form) p in
  if EpochCalculator.setText_raises int f txt form
  then raise_unhandled "OverflowError" p
  else p.

(** The state after an event, or [None] when the event cannot occur in
    this state or the process is aborted by an exception before anything
    has changed. An exception that leaves a slot after it has changed the
    state is recorded in [unhandled], and the state is the one in which the
    slot stopped. Clicking a thumbnail opens a modal view and changes
    nothing in the state. *)
Definition handle (int : string -> option Z) (SCRIPT_DIR : string)
  (w : world) (e : event) (p : process) : option process :=
  match e with
  | EntryEdited f txt => Some (entry_edited int f txt p)
  | BrowseClicked folder_path clicks =>
      ImageViewer.browse_directory SCRIPT_DIR w folder_path clicks p
  | LoaderFinished n => loader_finished int w n p
  | ThumbnailClicked n =>
      _ ← grid_layout (image_viewer p) !! n; Some p
  | ImportThemeClicked file_path =>
      Some (MainWindow.import_theme w file_path p)
  end.

(** A run of events, each with the world of its moment *)
Definition handle_all (int : string -> option Z) (SCRIPT_DIR : string)
  (events : list (world * event)) (p : process) : option process :=
  foldl (fun acc we => p ← acc; handle int SCRIPT_DIR we.1 we.2 p)
    (Some p) events.

(** One step of the process: an event is handled or, inside a rendering
    pass, a thumbnail is requested or a label is placed in the grid. The
    steps go on past an unhandled exception, where the process may have
    been aborted: what holds of every state reached holds of the states of
    the process. *)
Inductive step (int : string -> option Z) (SCRIPT_DIR : string)
  : process -> process -> Prop :=
  | step_event w e p p' :
      handle int SCRIPT_DIR w e p = Some p' -> step int SCRIPT_DIR p p'
  | step_thumbnail w img_path p :
      step int SCRIPT_DIR p (ImageViewer.load_and_cache_image w img_path p).2
  | step_widget c p :
      step int SCRIPT_DIR p (ImageViewer.addWidget c p).

Definition reachable (int : string -> option Z) (SCRIPT_DIR : string)
  (p : process) : Prop :=
  rtc (step int SCRIPT_DIR) MainWindow.init p.

(** Every pixmap in the cache is a decoded bitmap. *)
Definition cache_valid (p : process) : Prop :=
  forall path pixmap,
    image_cache p !! path = Some pixmap -> isNull pixmap = false.

(** From [p] to [p'] no cache entry is lost and validity is kept. *)
Definition cache_grows (p p' : process) : Prop :=
  image_cache p ⊆ image_cache p' /\ (cache_valid p -> cache_valid p').

(** [p'] differs from [p] at most in the globals and the grid. *)
Definition widgets_kept (p p' : process) : Prop :=
  epoch_calculator p' = epoch_calculator p
  /\ styleSheet p' = styleSheet p
  /\ image_paths (image_viewer p') = image_paths (image_viewer p)
  /\ image_count_label (image_viewer p') = image_count_label (image_viewer p)
  /\ loader_threads (image_viewer p') = loader_threads (image_viewer p).

(** A thumbnail request for [path] gives a bitmap: one is cached, or
    none is and the file decodes. *)
Definition decodable (w : world) (p : process) (path : string) : Prop :=
  match image_cache p !! path with
  | Some pixmap => isNull pixmap = false
  | None => read_image w path <> NullImage
  end.

(** The line printed when decoding [path] fails *)
Definition load_error (path : string) : string :=
  "Error loading image " ++ path ++ ": Failed to load image".

(** ** Scenarios used in the examples below *)

Module Scenario.

Definition photo : QImage :=
  Image {| width := 4000; height := 3000; content := 1 |}.

(** [0.png], [1.png], ... *)
Definition numbered (n : nat) : list string :=
  map (fun i => Py.str i ++ ".png") (seq 0 n).

(** A directory [/data] holding [n] image files and a text file *)
Definition folder (n : nat) : world :=
  {| path_exists := fun d => bool_decide (d = "/data");
     isdir := fun _ => false;
     listdir := fun d =>
       if bool_decide (d = "/data") then Some ("notes.txt" :: numbered n)
       else None;
     read_image := fun _ => photo;
     read_text := fun _ => inl "No such file or directory" |}.

(** [/data] holds a folder [AI]; the script lives in [/app]. *)
Definition dataset : world :=
  {| path_exists := fun d => bool_decide (d = "/data");
     isdir := fun d => bool_decide (d = "/data/AI");
     listdir := fun d =>
       if bool_decide (d = "/data") then Some ["AI"; "readme.md"]
       else if bool_decide (d = "/data/AI") then Some ["cat.png"]
       else None;
     read_image := fun _ => photo;
     read_text := fun _ => inl "No such file or directory" |}.

(** [/pics] holds two images; in [pics false] the file [a.png] has
    become undecodable. *)
Definition pics (a_ok : bool) : world :=
  {| path_exists := fun d => bool_decide (d = "/pics");
     isdir := fun _ => false;
     listdir := fun d =>
       if bool_decide (d = "/pics") then Some ["a.png"; "b.png"] else None;
     read_image := fun f =>
       if bool_decide (f = "/pics/a.png") && negb a_ok then NullImage
       else photo;
     read_text := fun _ => inl "No such file or directory" |}.

Definition themes : world :=
  {| path_exists := fun _ => true; isdir := fun _ => false;
     listdir := fun _ => None; read_image := fun _ => NullImage;
     read_text := fun f =>
       if bool_decide (f = "/app/themes/dark.css")
       then inr "QWidget { background: #222; }"
       else inl "[Errno 2] No such file or directory" |}.

(** The script is in [/app]. [/pics] is chosen and scanned while both
    files decode; then [a.png] is damaged and [/pics] is chosen again: the
    state in which the second scan is about to deliver. *)
Definition rescan : list (world * event) :=
  [(pics true, BrowseClicked "/pics" []); (pics true, LoaderFinished 0);
   (pics false, BrowseClicked "/pics" [])].

Definition stale : process :=
  default MainWindow.init (handle_all Py.int "/app" rescan MainWindow.init).

(** [/pics] is chosen for the first time, [a.png] being damaged. *)
Definition chosen : process :=
  default MainWindow.init
    (handle_all Py.int "/app" [(pics false, BrowseClicked "/pics" [])]
       MainWindow.init).

(** The viewer about to render the two files of [/pics] *)
Definition listed : process :=
  with_viewer
    (with_paths ["/pics/a.png"; "/pics/b.png"] ImageViewer.init)
    MainWindow.init.


(** The form with the given texts in its entries *)
Definition form (images repeats batch steps : string) : EpochCalculator.t :=
  {| EpochCalculator.images_entry := images;
     EpochCalculator.repeats_entry := repeats;
     EpochCalculator.batch_entry := batch;
     EpochCalculator.steps_entry := steps;
     EpochCalculator.result_label := Text "Optimal Epochs: " |}.

End Scenario.

(** ** The full view of an image *)

Module FullView.

Fixpoint has_slash (s : string) : bool :=
  match s with
  | EmptyString => false
  | String c r => Ascii.eqb c "/" || has_slash r
  end.

(** [os.path.basename(p)] (posixpath): what follows the last slash *)
Fixpoint basename (p : string) : string :=
  match p with
  | EmptyString => EmptyString
  | String c r =>
      if has_slash r then basename r
      else if Ascii.eqb c "/" then r else p
  end.

(** The modal dialog of [view_full_image] *)
Record dialog : Type := mk_dialog {
  windowTitle : string;
  shown : QPixmap
}.

(** [view_full_image]; [load path] is what [QPixmap(path)] loads from the
    file, at its own size. The dialog is closed by its Ok button and the
    state of the process is not touched. *)
Definition view_full_image (load : string -> QPixmap) (img_path : string)
  : dialog :=
  {| windowTitle := "Full View - " ++ basename img_path;
     shown := load img_path |}.

End FullView.

(** The result label of the form shows what its entries compute to, and
    they compute to something. *)
Definition in_sync (int : string -> option Z) (self : EpochCalculator.t)
  : Prop :=
  match EpochCalculator.try_calculate int self with
  | EpochCalculator.Shown txt => EpochCalculator.result_label self = txt
  | EpochCalculator.ValueError =>
      EpochCalculator.result_label self
      = Text "Invalid input. Enter integers only."
  | EpochCalculator.OverflowError => False
  end.

(** [p'] differs from [p] in the viewer's widgets only. *)
Definition viewer_only (p p' : process) : Prop :=
  image_cache p' = image_cache p /\ stdout p' = stdout p
  /\ reads p' = reads p /\ unhandled p' = unhandled p
  /\ epoch_calculator p' = epoch_calculator p
  /\ styleSheet p' = styleSheet p.

(** ** More scenarios *)

Module Cases.

(** Repeats 10 and batch 2 have been typed into the form. *)
Definition typed : list (world * event) :=
  [(Scenario.pics true, EntryEdited EpochCalculator.Repeats "10");
   (Scenario.pics true, EntryEdited EpochCalculator.Batch "2")].

Definition ready : process :=
  default MainWindow.init (handle_all Py.int "/app" typed MainWindow.init).

(** [/pics] has been chosen and scanned, both files decoding. *)
Definition scanned : process :=
  default MainWindow.init
    (handle_all Py.int "/app"
       [(Scenario.pics true, BrowseClicked "/pics" []);
        (Scenario.pics true, LoaderFinished 0)] MainWindow.init).

End Cases.

(** * Properties *)

Example int_examples :
  Py.int "12" = Some 12%Z /\ Py.int " -7 " = Some (-7)%Z /\
  Py.int "1_000" = Some 1000%Z /\ Py.int "1__0" = None /\
  Py.int "abc" = None /\ Py.int "" = None /\ Py.int "+ 5" = None /\
  Py.int "1.5" = None /\ Py.int "007" = Some 7%Z /\ Py.int "5_" = None.
Proof. vm_compute. repeat split. Qed.

(** The separators 0x1c to 0x1f are white space to [str.isspace] and not
    to [int]; a text of 4300 digits is read and one of 4301 is not. *)
Example int_limits :
  Py.is_space "028" = true /\ Py.int (String "028" "0") = None
  /\ Py.int (String "009" "7") = Some 7%Z
  /\ Py.int (String.string_of_list_ascii (repeat "0"%char 4300)) = Some 0%Z
  /\ Py.int (String.string_of_list_ascii (repeat "0"%char 4301)) = None.
Proof. vm_compute. repeat split. Qed.

Example true_divide_examples :
  Py.true_divide_overflows (10 ^ 400) 1 = true
  /\ Py.true_divide_overflows (2 ^ 1024 - 2 ^ 970) 1 = true
  /\ Py.true_divide_overflows (2 ^ 1024 - 2 ^ 970 - 1) 1 = false
  /\ Py.true_divide_overflows (- 10 ^ 400) 7 = true
  /\ Py.true_divide_overflows (2000 * 2) (4 * 10) = false.
Proof. vm_compute. repeat split. Qed.

Example str_examples :
  Py.str 0 = "0" /\ Py.str 50 = "50" /\ Py.str 107 = "107".
Proof. vm_compute. repeat split. Qed.

Example qualifies_examples :
  Py.lower "A.PnG" = "a.png"
  /\ ImageLoaderThread.qualifies "x.JPEG" = true
  /\ ImageLoaderThread.qualifies "photo.bmp" = true
  /\ ImageLoaderThread.qualifies "png" = false
  /\ ImageLoaderThread.qualifies "notes.png.txt" = false.
Proof. vm_compute. repeat split. Qed.

Example path_join_examples :
  Py.path_join "/d" "a" = "/d/a" /\ Py.path_join "/d/" "a" = "/d/a"
  /\ Py.path_join "" "a" = "a" /\ Py.path_join "/d" "/a" = "/a".
Proof. vm_compute. repeat split. Qed.

Example matches_dataset_examples :
  ImageViewer.matches_dataset Scenario.dataset "/data" "AI" = true
  /\ ImageViewer.matches_dataset Scenario.dataset "/data" "readme.md" = false
  /\ Py.any (fun name => bool_decide (Py.lower "dataSETS" = Py.lower name))
       DATASET_FOLDER_NAMES = true.
Proof. vm_compute. repeat split. Qed.

(** ** The epoch form *)

Section EpochForm.
Import EpochCalculator.

Lemma entry_value_blank int default :
  entry_value int "" default = Some default.
Proof. reflexivity. Qed.

Lemma result_label_set self txt : result_label (set_result self txt) = txt.
Proof. reflexivity. Qed.

(** The label after [calculate_epochs] is decided by [try_calculate]. *)
Lemma calculate_epochs_label int self :
  result_label (calculate_epochs int self) =
  match try_calculate int self with
  | Shown txt => txt
  | ValueError => Text "Invalid input. Enter integers only."
  | OverflowError => result_label self
  end.
Proof. unfold calculate_epochs. by destruct (try_calculate int self). Qed.

Lemma try_calculate_parsed int self i r b s :
  entry_value int (images_entry self) 0 = Some i ->
  entry_value int (repeats_entry self) 0 = Some r ->
  entry_value int (batch_entry self) 0 = Some b ->
  entry_value int (steps_entry self) 2000 = Some s ->
  try_calculate int self =
  if bool_decide (i > 0)%Z && bool_decide (r > 0)%Z && bool_decide (b > 0)%Z
  then if Py.true_divide_overflows (s * b) (i * r) then OverflowError
       else Shown (OptimalEpochs (s * b) (i * r))
  else Shown (Text "Enter valid positive integers.").
Proof.
  intros Hi Hr Hb Hs. unfold try_calculate.
  rewrite Hi, Hr, Hb, Hs. reflexivity.
Qed.





(** C4, as amended: when all four entries parse (a blank one as its
    default) and one of images, repeats, batch is not positive, the label
    asks for valid positive integers; it is neither a computed number nor
    the parse-error text. *)
Theorem calculate_epochs_nonpositive int self i r b s :
  entry_value int (images_entry self) 0 = Some i ->
  entry_value int (repeats_entry self) 0 = Some r ->
  entry_value int (batch_entry self) 0 = Some b ->
  entry_value int (steps_entry self) 2000 = Some s ->
  (i <= 0 \/ r <= 0 \/ b <= 0)%Z ->
  result_label (calculate_epochs int self)
  = Text "Enter valid positive integers."
  /\ (forall x y,
        result_label (calculate_epochs int self) <> OptimalEpochs x y)
  /\ result_label (calculate_epochs int self)
     <> Text "Invalid input. Enter integers only.".
Proof.
  intros Hi Hr Hb Hs Hle.
  assert (result_label (calculate_epochs int self)
          = Text "Enter valid positive integers.") as ->.
  { rewrite calculate_epochs_label,
      (try_calculate_parsed _ _ _ _ _ _ Hi Hr Hb Hs).
    destruct Hle as [?|[?|?]];
      repeat case_bool_decide; simpl; try reflexivity; lia. }
  split; [reflexivity|]. split; [intros x y|]; discriminate.
Qed.

(** Blank images, repeats and batch entries are the instance 0, 0, 0. *)
Lemma calculate_epochs_nonpositive_witness :
  result_label (calculate_epochs Py.int (Scenario.form "" "" "" "2000"))
  = Text "Enter valid positive integers."
  /\ (forall x y,
        result_label (calculate_epochs Py.int (Scenario.form "" "" "" "2000"))
        <> OptimalEpochs x y)
  /\ result_label (calculate_epochs Py.int (Scenario.form "" "" "" "2000"))
     <> Text "Invalid input. Enter integers only.".
Proof.
  apply (calculate_epochs_nonpositive Py.int
           (Scenario.form "" "" "" "2000") 0 0 0 2000);
    try reflexivity.
  left. lia.
Defined.

(** C4 as stated fails: images 0 with a steps entry that is no integer
    gives the parse-error text. *)
Lemma calculate_epochs_nonpositive_counterexample :
  entry_value Py.int "0" 0 = Some 0%Z /\ entry_value Py.int "1" 0 = Some 1%Z /\
  result_label (calculate_epochs Py.int (Scenario.form "0" "1" "1" "abc"))
  = Text "Invalid input. Enter integers only." /\
  result_label (calculate_epochs Py.int (Scenario.form "0" "1" "1" "abc"))
  <> Text "Enter valid positive integers.".
Proof. vm_compute. repeat split; discriminate. Qed.

(** An entry without a value makes the [try] block raise [ValueError],
    whatever the other entries hold. *)
Lemma try_calculate_no_value int self f :
  entry_value int (text_of f self) (match f with Steps => 2000 | _ => 0 end)%Z
  = None ->
  try_calculate int self = ValueError.
Proof.
  intros Hf. unfold try_calculate.
  destruct f; simpl in Hf;
    repeat (rewrite Hf; simpl; try reflexivity)
    || (destruct (entry_value _ _ _); simpl; try reflexivity).
Qed.

Lemma try_calculate_unparsed int self f :
  text_of f self <> "" ->
  int (text_of f self) = None ->
  try_calculate int self = ValueError.
Proof.
  intros Hne Hint. apply (try_calculate_no_value int self f).
  unfold entry_value. rewrite bool_decide_eq_false_2 by done.
  by destruct f.
Qed.

(** C5: a non-blank entry that is no integer, in any of the four fields,
    gives the invalid-input text, and no number. *)
Theorem calculate_epochs_invalid int self f :
  text_of f self <> "" ->
  int (text_of f self) = None ->
  result_label (calculate_epochs int self)
  = Text "Invalid input. Enter integers only."
  /\ forall x y,
      result_label (calculate_epochs int self) <> OptimalEpochs x y.
Proof.
  intros Hne Hint.
  rewrite calculate_epochs_label, (try_calculate_unparsed _ _ _ Hne Hint).
  split; [done|discriminate].
Qed.

Lemma calculate_epochs_invalid_witness :
  result_label
    (calculate_epochs Py.int (with_text Batch "12x" EpochCalculator.init))
  = Text "Invalid input. Enter integers only."
  /\ forall x y,
      result_label
        (calculate_epochs Py.int
           (with_text Batch "12x" EpochCalculator.init))
      <> OptimalEpochs x y.
Proof.
  apply (calculate_epochs_invalid Py.int
           (with_text Batch "12x" EpochCalculator.init) Batch).
  - discriminate.
  - reflexivity.
Defined.

End EpochForm.

(** ** The directory scan *)

Section Scan.
Import ImageLoaderThread.

Lemma length_loaded_image_paths directory names :
  length (loaded_image_paths directory names)
  = length (filter (fun f => qualifies f = true) names).
Proof. unfold loaded_image_paths. apply length_map. Qed.

(** What [run] emits, by cases on the number of qualifying names. *)
Lemma run_listed w directory names :
  listdir w directory = Some names ->
  run w directory =
  Some (if bool_decide
             (MAX_IMAGES_TO_DISPLAY < length (loaded_image_paths directory names))
        then (take MAX_IMAGES_TO_DISPLAY (loaded_image_paths directory names),
              false)
        else (loaded_image_paths directory names, true)).
Proof. intros H. unfold run. rewrite H. simpl. by case_bool_decide. Qed.

(** The list emitted never has more than the cap, and has exactly the
    cap when the flag is [false]. *)
Lemma run_length w directory paths all_loaded :
  run w directory = Some (paths, all_loaded) ->
  length paths <= MAX_IMAGES_TO_DISPLAY
  /\ (all_loaded = false -> length paths = MAX_IMAGES_TO_DISPLAY).
Proof.
  unfold run. destruct (listdir w directory) as [names|]; [|discriminate].
  simpl. case_bool_decide; intros [= <- <-].
  - rewrite length_take. split; [lia|]. intros _. lia.
  - split; [lia|discriminate].
Qed.

(** C1, as amended: with more than 50 qualifying names the scan emits
    the first 50 paths, in listing order, with the flag [false]; with 50
    or fewer it emits all of them with the flag [true]. The flag is the
    handler's [all_loaded]. *)
Theorem run_caps_at_50 w directory names :
  listdir w directory = Some names ->
  let qualifying := filter (fun f => qualifies f = true) names in
  let paths := map (Py.path_join directory) qualifying in
  (if bool_decide (50 < length qualifying)
   then run w directory = Some (take 50 paths, false)
        /\ length (take 50 paths) = 50
   else run w directory = Some (paths, true)).
Proof.
  intros H qualifying paths.
  rewrite (run_listed _ _ _ H), length_loaded_image_paths.
  fold qualifying. unfold MAX_IMAGES_TO_DISPLAY.
  case_bool_decide as Hn; [|reflexivity].
  split; [reflexivity|].
  rewrite length_take. unfold paths. rewrite length_map. lia.
Qed.

(** Twelve images and a text file: all twelve paths, flag [true]. *)
Lemma run_caps_at_50_witness :
  run (Scenario.folder 12) "/data"
  = Some (map (Py.path_join "/data") (Scenario.numbered 12), true).
Proof.
  exact (run_caps_at_50 (Scenario.folder 12) "/data"
           ("notes.txt" :: Scenario.numbered 12) eq_refl).
Defined.

(** C1 as stated fails on the flag: 60 qualifying files give the first
    50 paths and the flag [false], not [true]. *)
Lemma run_caps_at_50_counterexample :
  length (filter (fun f => qualifies f = true)
            ("notes.txt" :: Scenario.numbered 60)) = 60
  /\ run (Scenario.folder 60) "/data"
     = Some (map (Py.path_join "/data") (Scenario.numbered 50), false)
  /\ forall paths, run (Scenario.folder 60) "/data" <> Some (paths, true).
Proof.
  assert (run (Scenario.folder 60) "/data"
          = Some (map (Py.path_join "/data") (Scenario.numbered 50), false))
    as E by (vm_compute; reflexivity).
  split; [vm_compute; reflexivity|]. split; [exact E|].
  intros paths. rewrite E. intros [= _ ?].
Qed.

End Scan.

(** ** Dataset folders *)

Section DatasetFolders.
Import ImageViewer.

Lemma start_loading_images_threads directory p :
  loader_threads (image_viewer (start_loading_images directory p))
  = (loader_threads (image_viewer p) ++ [directory])%list.
Proof. reflexivity. Qed.

(** Confirming a choice starts a scan of the chosen name joined to the
    script's directory. *)
Lemma on_directory_selected_threads SCRIPT_DIR selected p :
  loader_threads (image_viewer (on_directory_selected SCRIPT_DIR selected p))
  = (loader_threads (image_viewer p)
     ++ [Py.path_join SCRIPT_DIR selected])%list.
Proof. reflexivity. Qed.

(** When some subfolder matches, the dialog is opened on exactly the
    matching names; otherwise the chosen directory itself is scanned. *)
Lemma load_images_existing SCRIPT_DIR w directory clicks p matching_dirs :
  path_exists w directory = true ->
  find_matching_dataset_dirs w directory = Some matching_dirs ->
  load_images SCRIPT_DIR w directory clicks p =
  Some (if bool_decide (matching_dirs <> [])
        then show_directory_selector_dialog SCRIPT_DIR matching_dirs clicks p
        else start_loading_images directory p).
Proof.
  intros He Hm. unfold load_images. rewrite He, Hm. simpl.
  by case_bool_decide.
Qed.

Lemma find_matching_dataset_dirs_elem w directory matching_dirs d :
  find_matching_dataset_dirs w directory = Some matching_dirs ->
  d ∈ matching_dirs <->
  exists names, listdir w directory = Some names /\ d ∈ names
    /\ isdir w (Py.path_join directory d) = true
    /\ exists name, name ∈ DATASET_FOLDER_NAMES
                    /\ Py.lower d = Py.lower name.
Proof.
  unfold find_matching_dataset_dirs.
  destruct (listdir w directory) as [names|]; [|discriminate].
  simpl. intros [= <-]. rewrite list_elem_of_filter.
  unfold matches_dataset, Py.any.
  rewrite andb_true_iff, existsb_exists. split.
  - intros [[Hd (name & Hin & Hl)] Hn]. exists names.
    repeat split; try done. exists name.
    split; [by apply list_elem_of_In|]. by apply bool_decide_eq_true in Hl.
  - intros (names' & [= <-] & Hn & Hd & name & Hin & Hl).
    repeat split; try done. exists name.
    split; [by apply list_elem_of_In|]. by apply bool_decide_eq_true.
Qed.

(** C2 on a directory [/data] with a folder [AI], the script being in
    [/app]: the prompt offers [AI], and confirming it starts a scan of
    [/app/AI], which is not the chosen subdirectory [/data/AI]; that scan
    finds no directory to list. *)
Theorem on_directory_selected_scans_script_dir :
  find_matching_dataset_dirs Scenario.dataset "/data" = Some ["AI"]
  /\ (p ← load_images "/app" Scenario.dataset "/data" [0] MainWindow.init;
      Some (loader_threads (image_viewer p))) = Some ["/app/AI"]
  /\ Py.path_join "/data" "AI" = "/data/AI"
  /\ ImageLoaderThread.run Scenario.dataset "/app/AI" = None
  /\ ImageLoaderThread.run Scenario.dataset "/data/AI"
     = Some (["/data/AI/cat.png"], true).
Proof. vm_compute. repeat split. Qed.

End DatasetFolders.

(** ** Theme import *)

Section Theme.
Import MainWindow.

(** C8: when reading the chosen file fails, the failure is printed and
    the style sheet stays as it was; when it succeeds, the text read
    becomes the window's style sheet, whatever it is. *)
Theorem import_theme_reads_or_keeps w file_path p :
  file_path <> "" ->
  match read_text w file_path with
  | inl e =>
      styleSheet (import_theme w file_path p) = styleSheet p
      /\ stdout (import_theme w file_path p)
         = (stdout p ++ [("Error importing theme: " ++ e)%string])%list
  | inr custom_css =>
      styleSheet (import_theme w file_path p) = custom_css
      /\ stdout (import_theme w file_path p) = stdout p
  end.
Proof.
  intros Hne. unfold import_theme.
  rewrite bool_decide_eq_true_2 by done.
  destruct (read_text w file_path); split; reflexivity.
Qed.

Lemma import_theme_reads_or_keeps_witness :
  styleSheet (import_theme Scenario.themes "/app/themes/none.css"
                (setStyleSheet "QLabel { color: red; }" MainWindow.init))
  = "QLabel { color: red; }"
  /\ stdout (import_theme Scenario.themes "/app/themes/none.css"
               (setStyleSheet "QLabel { color: red; }" MainWindow.init))
     = ["Error importing theme: [Errno 2] No such file or directory"].
Proof.
  apply (import_theme_reads_or_keeps Scenario.themes "/app/themes/none.css"
           (setStyleSheet "QLabel { color: red; }" MainWindow.init)).
  discriminate.
Defined.

(** A cancelled file dialog changes nothing. *)
Lemma import_theme_cancelled w p : import_theme w "" p = p.
Proof. reflexivity. Qed.

End Theme.

(** ** [str] and [int] *)

Section Decimal.

Lemma scan_digits_uint d (a : nat) :
  Py.scan_digits true false (Z.of_nat a) (NilEmpty.string_of_uint d)
  = Some (Z.of_nat (Nat.of_uint_acc d a), "").
Proof.
  revert a. induction d; intros a; simpl; [reflexivity|..];
    rewrite Nat.tail_mul_spec, <- IHd; f_equal;
    unfold Py.digit_value; simpl; lia.
Qed.

Lemma int_uint d :
  Py.digit_count (NilZero.string_of_uint d) <= Py.max_str_digits ->
  Py.int (NilZero.string_of_uint d) = Some (Z.of_nat (Nat.of_uint d)).
Proof.
  intros H. unfold Py.int, Nat.of_uint.
  destruct d; [reflexivity|..]; simpl in H |- *;
    match goal with
    | |- context [Py.scan_digits true false ?z _] =>
        change z with (Z.of_nat (Z.to_nat z))
    end;
    rewrite scan_digits_uint; simpl;
    by rewrite (bool_decide_eq_true_2 _ H).
Qed.

(** Reading back the text of a count gives the count, as long as the
    text is within the limit on digits. *)
Lemma int_str n :
  Py.digit_count (Py.str n) <= Py.max_str_digits ->
  Py.int (Py.str n) = Some (Z.of_nat n).
Proof.
  intros H. unfold Py.str in *. rewrite (int_uint _ H).
  by rewrite Unsigned.of_to.
Qed.

(** A count within the cap is written with two digits at most. *)
Lemma digit_count_str n :
  n <= MAX_IMAGES_TO_DISPLAY -> Py.digit_count (Py.str n) <= 2.
Proof.
  unfold MAX_IMAGES_TO_DISPLAY. intros H.
  do 51 (destruct n as [|n]; [vm_compute; lia|]). lia.
Qed.

Lemma int_str_capped n :
  n <= MAX_IMAGES_TO_DISPLAY -> Py.int (Py.str n) = Some (Z.of_nat n).
Proof.
  intros H. apply int_str. pose proof (digit_count_str n H) as Hd.
  unfold Py.max_str_digits. lia.
Qed.

Lemma str_nonempty n : Py.str n <> "".
Proof. unfold Py.str. by destruct (Nat.to_uint n). Qed.

End Decimal.

(** ** The thumbnail cache *)

Section Cache.
Import ImageViewer.

Lemma scaled_not_null b : exists b', scaled (Image b) 1920 1080 = Image b'.
Proof.
  unfold scaled. rewrite bool_decide_eq_false_2 by lia.
  destruct (scaled_size _ _ _ _). eauto.
Qed.

(** A thumbnail fits in the box it is scaled to. *)
Lemma scaled_size_fits wd ht w h :
  (0 < wd -> 0 < ht -> 0 < w -> 0 < h ->
   0 <= (scaled_size wd ht w h).1 <= w
   /\ 0 <= (scaled_size wd ht w h).2 <= h)%Z.
Proof.
  intros Hwd Hht Hw Hh. unfold scaled_size.
  rewrite bool_decide_eq_false_2 by lia.
  assert (0 <= h * wd / ht)%Z by (apply Z.div_pos; nia).
  case_bool_decide as Hrw; simpl; [lia|].
  assert (0 <= w * ht / wd)%Z by (apply Z.div_pos; nia).
  assert (w * ht / wd <= h)%Z; [|lia].
  apply Z.div_le_upper_bound; [lia|].
  pose proof (Z.mul_div_le (h * wd) ht Hht). nia.
Qed.

Lemma scaled_fits b b' :
  (0 < width b)%Z -> (0 < height b)%Z ->
  scaled (Image b) 1920 1080 = Image b' ->
  (1 <= width b' <= 1920 /\ 1 <= height b' <= 1080)%Z
  /\ content b' = content b.
Proof.
  intros Hw Hh. unfold scaled. rewrite bool_decide_eq_false_2 by lia.
  pose proof (scaled_size_fits (width b) (height b) 1920 1080 Hw Hh) as Hf.
  destruct (scaled_size _ _ _ _) as [nw nh]. simpl in Hf.
  intros [= <-]. simpl. split; [lia|done].
Qed.

(** A hit: the cached pixmap is returned and nothing else happens. *)
Lemma load_and_cache_image_hit w img_path p pixmap :
  image_cache p !! img_path = Some pixmap ->
  load_and_cache_image w img_path p = (pixmap, p).
Proof.
  intros H. unfold load_and_cache_image, cached.
  rewrite bool_decide_eq_false_2 by congruence. by rewrite H.
Qed.

(** A miss on a file that does not decode: the file is read, the error
    is printed, the empty pixmap is returned, the cache is untouched. *)
Lemma load_and_cache_image_fail w img_path p :
  image_cache p !! img_path = None ->
  read_image w img_path = NullImage ->
  load_and_cache_image w img_path p
  = (NullPixmap, print (load_error img_path) (record_read img_path p)).
Proof.
  intros Hc Hr. unfold load_and_cache_image, try_load.
  rewrite bool_decide_eq_true_2 by done. by rewrite Hr.
Qed.

(** A miss on a file that decodes: the file is read and its scaled
    bitmap is stored and returned. *)
Lemma load_and_cache_image_decode w img_path p b :
  image_cache p !! img_path = None ->
  read_image w img_path = Image b ->
  exists b',
    scaled (Image b) 1920 1080 = Image b'
    /\ load_and_cache_image w img_path p
       = (Pixmap b',
          with_cache (<[img_path := Pixmap b']> (image_cache p))
            (record_read img_path p)).
Proof.
  intros Hc Hr. destruct (scaled_not_null b) as [b' Hb']. exists b'.
  split; [done|]. unfold load_and_cache_image, try_load.
  rewrite bool_decide_eq_true_2 by done. rewrite Hr. simpl image_isNull.
  cbv iota. rewrite Hb'. unfold cached. simpl.
  by rewrite lookup_insert_eq.
Qed.

(** The three cases, chosen by the cache and the file. *)
Lemma load_and_cache_image_cases w img_path p :
  (exists pixmap, image_cache p !! img_path = Some pixmap
     /\ load_and_cache_image w img_path p = (pixmap, p))
  \/ (image_cache p !! img_path = None /\ read_image w img_path = NullImage
      /\ load_and_cache_image w img_path p
         = (NullPixmap, print (load_error img_path) (record_read img_path p)))
  \/ (exists b', image_cache p !! img_path = None
      /\ read_image w img_path <> NullImage
      /\ load_and_cache_image w img_path p
         = (Pixmap b',
            with_cache (<[img_path := Pixmap b']> (image_cache p))
              (record_read img_path p))).
Proof.
  destruct (image_cache p !! img_path) as [pixmap|] eqn:Hc.
  - left. exists pixmap. split; [done|]. by apply load_and_cache_image_hit.
  - right. destruct (read_image w img_path) as [|b] eqn:Hr.
    + left. repeat split; try done. by apply load_and_cache_image_fail.
    + right.
      destruct (load_and_cache_image_decode w img_path p b Hc Hr)
        as (b' & _ & E).
      exists b'. repeat split; done.
Qed.

(** A request only ever adds to the cache. *)
Lemma load_and_cache_image_grows w img_path p :
  image_cache p ⊆ image_cache (load_and_cache_image w img_path p).2.
Proof.
  destruct (load_and_cache_image_cases w img_path p)
    as [(pm & _ & ->)|[(_ & _ & ->)|(b' & Hc & _ & ->)]]; simpl; try done.
  by apply insert_subseteq.
Qed.

Lemma load_and_cache_image_other w img_path p other :
  other <> img_path ->
  image_cache (load_and_cache_image w img_path p).2 !! other
  = image_cache p !! other.
Proof.
  intros Hne.
  destruct (load_and_cache_image_cases w img_path p)
    as [(pm & _ & ->)|[(_ & _ & ->)|(b' & Hc & _ & ->)]]; simpl; try done.
  by rewrite lookup_insert_ne.
Qed.

Lemma load_and_cache_image_valid w img_path p :
  cache_valid p -> cache_valid (load_and_cache_image w img_path p).2.
Proof.
  intros Hv.
  destruct (load_and_cache_image_cases w img_path p)
    as [(pm & _ & ->)|[(_ & _ & ->)|(b' & Hc & _ & ->)]]; simpl; try done.
  intros path pixmap. simpl. rewrite lookup_insert.
  case_decide; [by intros [= <-]|apply Hv].
Qed.

(** A bitmap returned by a request is the cache's entry for the path. *)
Lemma load_and_cache_image_cached w img_path p pixmap p' :
  load_and_cache_image w img_path p = (pixmap, p') ->
  isNull pixmap = false ->
  image_cache p' !! img_path = Some pixmap.
Proof.
  destruct (load_and_cache_image_cases w img_path p)
    as [(pm & Hc & ->)|[(_ & _ & ->)|(b' & Hc & _ & ->)]];
    intros [= <- <-]; simpl; try done.
  intros _. by rewrite lookup_insert_eq.
Qed.

(** A decodable path gets a bitmap, and nothing is printed. *)
Lemma load_and_cache_image_decodable w img_path p :
  decodable w p img_path ->
  exists b, (load_and_cache_image w img_path p).1 = Pixmap b
    /\ stdout (load_and_cache_image w img_path p).2 = stdout p.
Proof.
  unfold decodable. intros Hd.
  destruct (load_and_cache_image_cases w img_path p)
    as [(pm & Hc & ->)|[(Hc & Hr & _)|(b' & Hc & _ & ->)]]; simpl.
  - rewrite Hc in Hd. destruct pm; [done|eauto].
  - by rewrite Hc in Hd.
  - eauto.
Qed.

(** A request leaves every decodable path decodable. *)
Lemma load_and_cache_image_keeps_decodable w img_path p path :
  decodable w p path ->
  decodable w (load_and_cache_image w img_path p).2 path.
Proof.
  unfold decodable. intros Hd.
  destruct (load_and_cache_image_cases w img_path p)
    as [(pm & _ & ->)|[(_ & _ & ->)|(b' & Hc & _ & ->)]]; simpl; try done.
  rewrite lookup_insert. case_decide; [done|exact Hd].
Qed.

Lemma load_and_cache_image_widgets w img_path p :
  widgets_kept p (load_and_cache_image w img_path p).2
  /\ grid_layout (image_viewer (load_and_cache_image w img_path p).2)
     = grid_layout (image_viewer p).
Proof.
  destruct (load_and_cache_image_cases w img_path p)
    as [(pm & _ & ->)|[(_ & _ & ->)|(b' & Hc & _ & ->)]]; by repeat split.
Qed.

(** *** No entry is ever lost *)

Lemma cache_grows_same p p' : image_cache p' = image_cache p -> cache_grows p p'.
Proof. intros H. unfold cache_grows, cache_valid. rewrite H. by split. Qed.

Lemma cache_grows_trans p1 p2 p3 :
  cache_grows p1 p2 -> cache_grows p2 p3 -> cache_grows p1 p3.
Proof.
  intros [H1 V1] [H2 V2]. split; [by etrans|auto].
Qed.

Lemma load_and_cache_image_cache_grows w img_path p :
  cache_grows p (load_and_cache_image w img_path p).2.
Proof.
  split; [apply load_and_cache_image_grows|apply load_and_cache_image_valid].
Qed.

Lemma display_loop_cache_grows w paths row col p :
  cache_grows p (display_loop w paths row col p).
Proof.
  revert row col p. induction paths as [|img_path rest IH]; intros row col p.
  { by apply cache_grows_same. }
  simpl. pose proof (load_and_cache_image_cache_grows w img_path p) as Hl.
  destruct (load_and_cache_image w img_path p) as [pixmap p1]. simpl in Hl.
  destruct (isNull pixmap); [|case_bool_decide];
    (eapply cache_grows_trans; [exact Hl|]);
    (eapply cache_grows_trans; [|apply IH]); by apply cache_grows_same.
Qed.

Lemma show_directory_selector_dialog_cache SCRIPT_DIR directories clicks p :
  image_cache (show_directory_selector_dialog SCRIPT_DIR directories clicks p)
  = image_cache p.
Proof.
  unfold show_directory_selector_dialog. revert p.
  induction clicks as [|i clicks IH]; intros p; [done|].
  simpl. by rewrite IH.
Qed.

Lemma update_images_cache_grows int w paths all_loaded p :
  cache_grows p (update_images int w paths all_loaded p).
Proof.
  unfold update_images, display_images.
  case_match; [by apply cache_grows_same|].
  eapply cache_grows_trans; [|apply display_loop_cache_grows].
  by apply cache_grows_same.
Qed.

Lemma handle_cache_grows int SCRIPT_DIR w e p p' :
  handle int SCRIPT_DIR w e p = Some p' -> cache_grows p p'.
Proof.
  destruct e as [f txt|folder_path clicks|n|n|file_path]; simpl.
  - intros [= <-]. apply cache_grows_same. unfold entry_edited.
    by case_match.
  - unfold browse_directory, load_images.
    case_bool_decide; [|by intros [= <-]; apply cache_grows_same].
    destruct (path_exists w folder_path); simpl;
      [|by intros [= <-]; apply cache_grows_same].
    destruct (find_matching_dataset_dirs w folder_path) as [dirs|];
      [|discriminate].
    simpl. case_bool_decide; intros [= <-]; apply cache_grows_same; [|done].
    apply show_directory_selector_dialog_cache.
  - unfold loader_finished.
    destruct (loader_threads (image_viewer p) !! n) as [directory|];
      [|discriminate].
    simpl. destruct (ImageLoaderThread.run w directory) as [[paths flag]|];
      [|discriminate].
    intros [= <-].
    eapply cache_grows_trans; [|apply update_images_cache_grows].
    by apply cache_grows_same.
  - destruct (grid_layout (image_viewer p) !! n); [|discriminate].
    intros [= <-]. by apply cache_grows_same.
  - intros [= <-]. apply cache_grows_same. unfold MainWindow.import_theme.
    case_bool_decide; [|done]. by destruct (read_text w file_path).
Qed.

Lemma step_cache_grows int SCRIPT_DIR p p' :
  step int SCRIPT_DIR p p' -> cache_grows p p'.
Proof.
  intros [w e p1 p2 H|w img_path p1|c p1].
  - by eapply handle_cache_grows.
  - apply load_and_cache_image_cache_grows.
  - by apply cache_grows_same.
Qed.

Lemma steps_cache_grow int SCRIPT_DIR p p' :
  rtc (step int SCRIPT_DIR) p p' -> cache_grows p p'.
Proof.
  induction 1 as [p|p1 p2 p3 H12 _ IH]; [by apply cache_grows_same|].
  eapply cache_grows_trans; [by eapply step_cache_grows|done].
Qed.

Lemma cache_valid_init : cache_valid MainWindow.init.
Proof. intros path pixmap. simpl. by rewrite lookup_empty. Qed.

(** In every reachable state the cache holds decoded bitmaps only. *)
Lemma reachable_cache_valid int SCRIPT_DIR p :
  reachable int SCRIPT_DIR p -> cache_valid p.
Proof.
  intros H. apply steps_cache_grow in H as [_ H]. apply H, cache_valid_init.
Qed.

(** A rendering pass is a sequence of steps. *)
Lemma display_loop_steps int SCRIPT_DIR w paths row col p :
  rtc (step int SCRIPT_DIR) p (display_loop w paths row col p).
Proof.
  revert row col p. induction paths as [|img_path rest IH]; intros row col p.
  { apply rtc_refl. }
  simpl. pose proof (step_thumbnail int SCRIPT_DIR w img_path p) as Hl.
  destruct (load_and_cache_image w img_path p) as [pixmap p1]. simpl in Hl.
  eapply rtc_l; [exact Hl|].
  destruct (isNull pixmap); [apply IH|].
  eapply rtc_l; [apply step_widget|].
  case_bool_decide; apply IH.
Qed.

(** C6: once a request for a path has returned a decoded bitmap, the
    cache holds it, every later state of the process still holds it along
    with every other entry, and a later request, whatever the file has
    become, returns that bitmap without reading the file or changing
    anything. *)
Theorem thumbnail_cached_for_good int SCRIPT_DIR w1 w2 img_path p pixmap p1
  p2 :
  load_and_cache_image w1 img_path p = (pixmap, p1) ->
  isNull pixmap = false ->
  rtc (step int SCRIPT_DIR) p1 p2 ->
  image_cache p1 !! img_path = Some pixmap
  /\ image_cache p ⊆ image_cache p1
  /\ image_cache p1 ⊆ image_cache p2
  /\ load_and_cache_image w2 img_path p2 = (pixmap, p2)
  /\ reads (load_and_cache_image w2 img_path p2).2 = reads p2.
Proof.
  intros Hload Hnn Hsteps.
  pose proof (load_and_cache_image_cached _ _ _ _ _ Hload Hnn) as Hc.
  pose proof (load_and_cache_image_grows w1 img_path p) as Hg.
  rewrite Hload in Hg. simpl in Hg.
  apply steps_cache_grow in Hsteps as [Hsub _].
  assert (load_and_cache_image w2 img_path p2 = (pixmap, p2)) as E.
  { apply load_and_cache_image_hit. by eapply lookup_weaken. }
  rewrite E. done.
Qed.

(** [a.png] is decoded once; a theme is imported; the file is damaged;
    the second request still returns the first bitmap. *)
Lemma thumbnail_cached_for_good_witness :
  let first :=
    load_and_cache_image (Scenario.pics true) "/pics/a.png" MainWindow.init in
  let later :=
    MainWindow.import_theme Scenario.themes "/app/themes/dark.css" first.2 in
  load_and_cache_image (Scenario.pics false) "/pics/a.png" later
  = (first.1, later)
  /\ reads (load_and_cache_image (Scenario.pics false) "/pics/a.png" later).2
     = ["/pics/a.png"].
Proof.
  intros first later.
  destruct (thumbnail_cached_for_good Py.int "/app" (Scenario.pics true)
              (Scenario.pics false) "/pics/a.png" MainWindow.init
              first.1 first.2 later) as (_ & _ & _ & E & R).
  - vm_compute. reflexivity.
  - vm_compute. reflexivity.
  - apply rtc_once.
    apply (step_event Py.int "/app" Scenario.themes
             (ImportThemeClicked "/app/themes/dark.css")).
    reflexivity.
  - split; [exact E|]. rewrite R. vm_compute. reflexivity.
Defined.

End Cache.

(** ** Rendering passes *)

Section Rendering.
Import ImageViewer.

Lemma decodable_same_cache w p p' path :
  image_cache p' = image_cache p -> decodable w p path -> decodable w p' path.
Proof. unfold decodable. by intros ->. Qed.

Lemma widgets_kept_refl p : widgets_kept p p.
Proof. by repeat split. Qed.

Lemma widgets_kept_trans p1 p2 p3 :
  widgets_kept p1 p2 -> widgets_kept p2 p3 -> widgets_kept p1 p3.
Proof.
  unfold widgets_kept. intros (?&?&?&?&?) (?&?&?&?&?).
  repeat split; congruence.
Qed.

(** A pass appends cells to the grid, at most one per path, and leaves
    the other widgets alone. *)
Lemma display_loop_widgets w paths row col p :
  widgets_kept p (display_loop w paths row col p)
  /\ exists cells,
      grid_layout (image_viewer (display_loop w paths row col p))
      = (grid_layout (image_viewer p) ++ cells)%list
      /\ length cells <= length paths.
Proof.
  revert row col p. induction paths as [|img_path rest IH]; intros row col p.
  { split; [apply widgets_kept_refl|]. exists []. by rewrite app_nil_r. }
  simpl. destruct (load_and_cache_image_widgets w img_path p) as [Hk Hg].
  destruct (load_and_cache_image w img_path p) as [pixmap p1].
  simpl in Hk, Hg. destruct (isNull pixmap).
  - destruct (IH row col p1) as [Hk' (cells & Hc & Hlen)].
    split; [by eapply widgets_kept_trans|].
    exists cells. rewrite Hc, Hg. split; [done|lia].
  - set (c := {| cell_pixmap := pixmap; cell_path := img_path;
                 cell_row := row; cell_col := col |}).
    assert (forall r' c',
      widgets_kept p (display_loop w rest r' c' (addWidget c p1))
      /\ exists cells,
          grid_layout (image_viewer (display_loop w rest r' c' (addWidget c p1)))
          = (grid_layout (image_viewer p) ++ cells)%list
          /\ length cells <= S (length rest)) as Hboth.
    { intros r' c'.
      destruct (IH r' c' (addWidget c p1)) as [Hk' (cells & Hc & Hlen)].
      split.
      - eapply widgets_kept_trans; [exact Hk|].
        eapply widgets_kept_trans; [|exact Hk']. by repeat split.
      - exists (c :: cells). rewrite Hc. simpl. rewrite Hg, <- app_assoc.
        split; [done|lia]. }
    case_bool_decide; apply Hboth.
Qed.

(** The cells of a pass fill rows of five, left to right, from the
    position the pass starts at. *)
Lemma display_loop_rows_of_five w paths row col p :
  col < 5 ->
  exists cells,
    grid_layout (image_viewer (display_loop w paths row col p))
    = (grid_layout (image_viewer p) ++ cells)%list
    /\ forall k c, cells !! k = Some c ->
         cell_col c < 5 /\ 5 * cell_row c + cell_col c = 5 * row + col + k.
Proof.
  revert row col p. induction paths as [|img_path rest IH];
    intros row col p Hcol.
  { exists []. rewrite app_nil_r. split; [done|]. by intros k c ?. }
  simpl. destruct (load_and_cache_image_widgets w img_path p) as [_ Hg].
  destruct (load_and_cache_image w img_path p) as [pixmap p1].
  simpl in Hg. destruct (isNull pixmap).
  { destruct (IH row col p1 Hcol) as (cells & Hc & Hpos).
    exists cells. by rewrite Hc, Hg. }
  set (c0 := {| cell_pixmap := pixmap; cell_path := img_path;
                cell_row := row; cell_col := col |}).
  assert (forall r' c', c' < 5 -> 5 * r' + c' = 5 * row + col + 1 ->
    exists cells,
      grid_layout (image_viewer (display_loop w rest r' c' (addWidget c0 p1)))
      = (grid_layout (image_viewer p) ++ cells)%list
      /\ forall k c, cells !! k = Some c ->
           cell_col c < 5 /\ 5 * cell_row c + cell_col c = 5 * row + col + k)
    as Hboth.
  { intros r' c' Hc' Hnext.
    destruct (IH r' c' (addWidget c0 p1) Hc') as (cells & Hc & Hpos).
    exists (c0 :: cells). rewrite Hc. simpl. rewrite Hg, <- app_assoc.
    split; [done|]. intros [|k] c; simpl.
    - intros [= <-]. simpl. lia.
    - intros Hk. destruct (Hpos k c Hk). lia. }
  case_bool_decide; apply Hboth; lia.
Qed.

(** A pass over two lists in a row is a pass over the first followed by
    a pass over the second, from the counters the first one reached. *)
Lemma display_loop_app w l1 l2 row col p :
  exists row' col',
    display_loop w (l1 ++ l2) row col p
    = display_loop w l2 row' col' (display_loop w l1 row col p).
Proof.
  revert row col p. induction l1 as [|img_path rest IH]; intros row col p.
  { by exists row, col. }
  simpl. destruct (load_and_cache_image w img_path p) as [pixmap p1].
  destruct (isNull pixmap); [apply IH|]. case_bool_decide; apply IH.
Qed.

(** A pass over decodable paths renders them all, in order, prints
    nothing, keeps decodable paths decodable and does not touch the cache
    entries of other paths. *)
Lemma display_loop_decodable w paths row col p :
  Forall (decodable w p) paths ->
  exists cells,
    grid_layout (image_viewer (display_loop w paths row col p))
    = (grid_layout (image_viewer p) ++ cells)%list
    /\ map cell_path cells = paths
    /\ stdout (display_loop w paths row col p) = stdout p
    /\ (forall x, decodable w p x ->
          decodable w (display_loop w paths row col p) x)
    /\ forall x, x ∉ paths ->
         image_cache (display_loop w paths row col p) !! x
         = image_cache p !! x.
Proof.
  revert row col p. induction paths as [|img_path rest IH];
    intros row col p Hall.
  { exists []. by rewrite app_nil_r. }
  apply Forall_cons in Hall as [Hd Hall]. simpl.
  destruct (load_and_cache_image_decodable w img_path p Hd) as (b & Hb & Ho).
  pose proof (load_and_cache_image_keeps_decodable w img_path p) as Hkeep.
  pose proof (load_and_cache_image_other w img_path p) as Hoth.
  destruct (load_and_cache_image_widgets w img_path p) as [_ Hg].
  destruct (load_and_cache_image w img_path p) as [pixmap p1].
  simpl in *. subst pixmap. simpl.
  set (c := {| cell_pixmap := Pixmap b; cell_path := img_path;
               cell_row := row; cell_col := col |}).
  assert (forall r' c',
    exists cells,
      grid_layout (image_viewer (display_loop w rest r' c' (addWidget c p1)))
      = (grid_layout (image_viewer p) ++ cells)%list
      /\ map cell_path cells = img_path :: rest
      /\ stdout (display_loop w rest r' c' (addWidget c p1)) = stdout p
      /\ (forall x, decodable w p x ->
            decodable w (display_loop w rest r' c' (addWidget c p1)) x)
      /\ forall x, x ∉ img_path :: rest ->
           image_cache (display_loop w rest r' c' (addWidget c p1)) !! x
           = image_cache p !! x) as Hboth.
  { intros r' c'.
    destruct (IH r' c' (addWidget c p1)) as (cells & Hc & Hm & Hs & Hdec & Hx).
    - eapply Forall_impl; [exact Hall|]. intros q Hq.
      eapply decodable_same_cache; [|by apply Hkeep]. done.
    - exists (c :: cells). rewrite Hc, Hs. simpl.
      rewrite Hg, <- app_assoc, Hm. split; [done|]. split; [done|].
      split; [done|]. split.
      + intros x Hx'. apply Hdec.
        eapply decodable_same_cache; [|by apply Hkeep]. done.
      + intros x [Hne Hnr]%not_elem_of_cons. rewrite (Hx x Hnr). simpl.
        by apply Hoth. }
  case_bool_decide; apply Hboth.
Qed.

Lemma load_and_cache_image_reads w img_path p :
  exists new, reads (load_and_cache_image w img_path p).2
              = (reads p ++ new)%list.
Proof.
  destruct (load_and_cache_image_cases w img_path p)
    as [(pm & _ & ->)|[(_ & _ & ->)|(b' & Hc & _ & ->)]]; simpl.
  - exists []. by rewrite app_nil_r.
  - by exists [img_path].
  - by exists [img_path].
Qed.

(** A path that is not cached and does not decode is read by every pass
    that contains it, and is still not cached afterwards. *)
Lemma display_loop_failing w x paths row col p :
  image_cache p !! x = None ->
  read_image w x = NullImage ->
  image_cache (display_loop w paths row col p) !! x = None
  /\ exists new,
      reads (display_loop w paths row col p) = (reads p ++ new)%list
      /\ (x ∈ paths -> x ∈ new).
Proof.
  intros Hc Hr. revert row col p Hc.
  induction paths as [|img_path rest IH]; intros row col p Hc.
  { split; [done|]. exists []. rewrite app_nil_r. split; [done|].
    by intros ?%elem_of_nil. }
  simpl. destruct (decide (img_path = x)) as [->|Hne].
  - rewrite (load_and_cache_image_fail w x p Hc Hr). simpl.
    destruct (IH row col (print (load_error x) (record_read x p)) Hc)
      as [Hc' (new & Hn & _)].
    split; [done|]. exists (x :: new). rewrite Hn. simpl.
    rewrite <- app_assoc. split; [done|]. intros _. apply list_elem_of_here.
  - pose proof (load_and_cache_image_other w img_path p x
                  (not_eq_sym Hne)) as Hoth.
    destruct (load_and_cache_image_reads w img_path p) as [r1 Hr1].
    destruct (load_and_cache_image w img_path p) as [pixmap p1].
    simpl in Hoth, Hr1. rewrite Hc in Hoth.
    assert (forall r' c' q,
      image_cache q = image_cache p1 -> reads q = reads p1 ->
      image_cache (display_loop w rest r' c' q) !! x = None
      /\ exists new,
          reads (display_loop w rest r' c' q) = (reads p ++ new)%list
          /\ (x ∈ img_path :: rest -> x ∈ new)) as Hboth.
    { intros r' c' q Hqc Hqr.
      destruct (IH r' c' q) as [Hc' (new & Hn & Hin)]; [by rewrite Hqc|].
      split; [done|]. exists (r1 ++ new)%list.
      rewrite Hn, Hqr, Hr1, <- app_assoc. split; [done|].
      intros [?|?]%elem_of_cons; [congruence|].
      apply elem_of_app. right. by apply Hin. }
    destruct (isNull pixmap); [by apply Hboth|].
    case_bool_decide; by apply Hboth.
Qed.

End Rendering.

(** ** Failed decodes *)

Section FailedDecodes.
Import ImageViewer.

Lemma handle_all_steps int SCRIPT_DIR events p p' :
  handle_all int SCRIPT_DIR events p = Some p' ->
  rtc (step int SCRIPT_DIR) p p'.
Proof.
  unfold handle_all. revert p' . induction events as [|[w e] events IH]
    using rev_ind; intros p'.
  { intros [= <-]. apply rtc_refl. }
  rewrite foldl_app. simpl.
  destruct (foldl _ (Some p) events) as [q|]; [|discriminate]. simpl.
  intros H. eapply rtc_r; [by apply IH|]. by eapply step_event.
Qed.

Lemma not_decodable w p path :
  image_cache p !! path = None -> read_image w path = NullImage ->
  ~ decodable w p path.
Proof. unfold decodable. intros -> Hr. congruence. Qed.

(** C7, as amended: in a pass over a list in which one path has no
    cached thumbnail and does not decode, and every other path has a
    cached thumbnail or decodes, the grid receives the other paths in
    order, one cell fewer than there are paths; the failure is printed and
    no label of the window changes. *)
Theorem display_images_skips_failed w p before bad after :
  image_paths (image_viewer p) = (before ++ bad :: after)%list ->
  image_cache p !! bad = None ->
  read_image w bad = NullImage ->
  Forall (decodable w p) (before ++ after) ->
  exists cells,
    grid_layout (image_viewer (display_images w p))
    = (grid_layout (image_viewer p) ++ cells)%list
    /\ map cell_path cells = (before ++ after)%list
    /\ length cells = length (image_paths (image_viewer p)) - 1
    /\ stdout (display_images w p) = (stdout p ++ [load_error bad])%list
    /\ widgets_kept p (display_images w p).
Proof.
  intros Hpaths Hc Hr [Hb Ha]%Forall_app.
  pose proof (not_decodable w p bad Hc Hr) as Hbad.
  unfold display_images. rewrite Hpaths.
  destruct (display_loop_widgets w (before ++ bad :: after) 0 0 p) as [Hk _].
  destruct (display_loop_app w before (bad :: after) 0 0 p) as (r & c & E).
  rewrite E in *. clear E.
  destruct (display_loop_decodable w before 0 0 p Hb)
    as (cells1 & Hg1 & Hm1 & Hs1 & Hd1 & Hx1).
  set (p1 := display_loop w before 0 0 p) in *.
  assert (image_cache p1 !! bad = None) as Hc1.
  { rewrite Hx1; [done|]. intros Hin.
    apply Hbad. by eapply Forall_forall in Hb. }
  simpl in *. rewrite (load_and_cache_image_fail w bad p1 Hc1 Hr) in *.
  simpl in *.
  set (p2 := print (load_error bad) (record_read bad p1)) in *.
  destruct (display_loop_decodable w after r c p2)
    as (cells2 & Hg2 & Hm2 & Hs2 & _).
  { eapply Forall_impl; [exact Ha|]. intros q Hq.
    eapply (decodable_same_cache w p1); [done|by apply Hd1]. }
  exists (cells1 ++ cells2)%list. rewrite Hg2, Hs2. simpl.
  rewrite Hg1, Hs1, <- app_assoc, map_app, Hm1, Hm2.
  split; [done|]. split; [done|]. split; [|by split].
  rewrite !length_app, <- Hm1, <- Hm2. simpl. rewrite !length_map. lia.
Qed.

Lemma display_images_skips_failed_witness :
  exists cells,
    grid_layout (image_viewer
                   (display_images (Scenario.pics false) Scenario.listed))
    = (grid_layout (image_viewer Scenario.listed) ++ cells)%list
    /\ map cell_path cells = ([] ++ ["/pics/b.png"])%list
    /\ length cells = length (image_paths (image_viewer Scenario.listed)) - 1
    /\ stdout (display_images (Scenario.pics false) Scenario.listed)
       = (stdout Scenario.listed ++ [load_error "/pics/a.png"])%list
    /\ widgets_kept Scenario.listed
         (display_images (Scenario.pics false) Scenario.listed).
Proof.
  apply (display_images_skips_failed (Scenario.pics false) Scenario.listed
           [] "/pics/a.png" ["/pics/b.png"]).
  - reflexivity.
  - reflexivity.
  - reflexivity.
  - constructor; [vm_compute; discriminate|constructor].
Defined.

(** C7 as stated fails when the damaged file has a thumbnail from an
    earlier scan: the pass renders both paths and prints nothing. *)
Lemma display_images_skips_failed_counterexample :
  reachable Py.int "/app" Scenario.stale
  /\ grid_layout (image_viewer Scenario.stale) = []
  /\ read_image (Scenario.pics false) "/pics/a.png" = NullImage
  /\ read_image (Scenario.pics false) "/pics/b.png" <> NullImage
  /\ exists p',
      handle Py.int "/app" (Scenario.pics false) (LoaderFinished 0)
        Scenario.stale
      = Some p'
      /\ image_paths (image_viewer p') = ["/pics/a.png"; "/pics/b.png"]
      /\ map cell_path (grid_layout (image_viewer p'))
         = ["/pics/a.png"; "/pics/b.png"]
      /\ length (grid_layout (image_viewer p'))
         <> length (image_paths (image_viewer p')) - 1
      /\ stdout p' = [].
Proof.
  split.
  { apply (handle_all_steps Py.int "/app" Scenario.rescan).
    vm_compute. reflexivity. }
  split; [vm_compute; reflexivity|].
  split; [reflexivity|]. split; [discriminate|].
  eexists. split; [vm_compute; reflexivity|].
  simpl. repeat split; try reflexivity. discriminate.
Qed.

End FailedDecodes.

(** ** What a failed decode leaves behind *)

Section NothingCached.
Import ImageViewer.

(** C9: in a reachable state the cache holds decoded bitmaps only. A
    request for a path that is not cached and does not decode reads the
    file, prints the error, returns the empty pixmap and leaves the cache
    as it was; a rendering pass over a list containing the path reads the
    file again and leaves the path uncached, in a state that is reachable
    in turn. *)
Theorem failed_decode_not_cached int SCRIPT_DIR w img_path p :
  reachable int SCRIPT_DIR p ->
  image_cache p !! img_path = None ->
  read_image w img_path = NullImage ->
  img_path ∈ image_paths (image_viewer p) ->
  cache_valid p
  /\ load_and_cache_image w img_path p
     = (NullPixmap, print (load_error img_path) (record_read img_path p))
  /\ image_cache (load_and_cache_image w img_path p).2 = image_cache p
  /\ reachable int SCRIPT_DIR (display_images w p)
  /\ cache_valid (display_images w p)
  /\ image_cache (display_images w p) !! img_path = None
  /\ exists earlier later,
      reads (display_images w p)
      = (reads p ++ earlier ++ img_path :: later)%list.
Proof.
  intros Hreach Hc Hr Hin.
  assert (reachable int SCRIPT_DIR (display_images w p)) as Hreach'.
  { unfold reachable. etrans; [exact Hreach|]. apply display_loop_steps. }
  split; [by eapply reachable_cache_valid|].
  rewrite (load_and_cache_image_fail w img_path p Hc Hr).
  split; [done|]. split; [done|]. split; [done|].
  split; [by eapply reachable_cache_valid|].
  destruct (display_loop_failing w img_path (image_paths (image_viewer p))
              0 0 p Hc Hr) as [Hc' (new & Hn & Hnew)].
  split; [done|].
  destruct (list_elem_of_split _ _ (Hnew Hin)) as (earlier & later & ->).
  by exists earlier, later.
Qed.

Lemma failed_decode_not_cached_witness :
  cache_valid
    (update_images Py.int (Scenario.pics false)
       ["/pics/a.png"; "/pics/b.png"] true MainWindow.init)
  /\ image_cache
       (display_images (Scenario.pics false)
          (update_images Py.int (Scenario.pics false)
             ["/pics/a.png"; "/pics/b.png"] true MainWindow.init))
     !! "/pics/a.png" = None.
Proof.
  pose proof (failed_decode_not_cached Py.int "/app" (Scenario.pics false)
                "/pics/a.png"
                (update_images Py.int (Scenario.pics false)
                   ["/pics/a.png"; "/pics/b.png"] true MainWindow.init))
    as H.
  destruct H as (Hv & _ & _ & _ & _ & Hc & _).
  - apply (handle_all_steps Py.int "/app"
             [(Scenario.pics false, BrowseClicked "/pics" []);
              (Scenario.pics false, LoaderFinished 0)]).
    vm_compute. reflexivity.
  - vm_compute. reflexivity.
  - reflexivity.
  - simpl. apply list_elem_of_here.
  - split; [exact Hv|exact Hc].
Defined.

End NothingCached.

(** ** The count after a scan *)

Section Count.
Import ImageViewer.

Lemma calculate_epochs_entries int self f :
  EpochCalculator.text_of f (EpochCalculator.calculate_epochs int self)
  = EpochCalculator.text_of f self.
Proof.
  unfold EpochCalculator.calculate_epochs.
  by destruct (EpochCalculator.try_calculate int self), f.
Qed.

(** After [setText] the entry holds the text, and the result label has
    been recomputed if the text is new. *)
Lemma setText_text int f txt self :
  EpochCalculator.text_of f (EpochCalculator.setText int f txt self) = txt.
Proof.
  unfold EpochCalculator.setText. case_bool_decide; [done|].
  rewrite calculate_epochs_entries. by destruct f.
Qed.

Lemma update_image_count_entry int n self :
  EpochCalculator.images_entry (EpochCalculator.update_image_count int n self)
  = Py.str n.
Proof. apply (setText_text int EpochCalculator.Images). Qed.

(** What delivering a scan does to the widgets outside the grid. *)
Lemma update_images_widgets int w paths all_loaded p :
  epoch_calculator (update_images int w paths all_loaded p)
  = EpochCalculator.update_image_count int (length paths) (epoch_calculator p)
  /\ styleSheet (update_images int w paths all_loaded p) = styleSheet p
  /\ image_paths (image_viewer (update_images int w paths all_loaded p))
     = paths
  /\ image_count_label (image_viewer (update_images int w paths all_loaded p))
     = count_label paths all_loaded
  /\ loader_threads (image_viewer (update_images int w paths all_loaded p))
     = loader_threads (image_viewer p).
Proof.
  unfold update_images. case_match; [by repeat split|].
  unfold display_images.
  match goal with
  | |- context [display_loop w ?l 0 0 ?q] =>
      destruct (display_loop_widgets w l 0 0 q)
        as [(Hcalc & Hstyle & Hpaths & Hlabel & Hthreads) _]
  end.
  by rewrite Hcalc, Hstyle, Hpaths, Hlabel, Hthreads.
Qed.

Lemma update_images_grid int w paths all_loaded p :
  exists cells,
    grid_layout (image_viewer (update_images int w paths all_loaded p))
    = (grid_layout (image_viewer p) ++ cells)%list
    /\ length cells <= length paths.
Proof.
  unfold update_images. case_match.
  { exists []. simpl. rewrite app_nil_r. split; [done|lia]. }
  unfold display_images.
  match goal with
  | |- context [display_loop w ?l 0 0 ?q] =>
      destruct (display_loop_widgets w l 0 0 q) as [_ Hgrid]
  end.
  exact Hgrid.
Qed.

(** C10: when a scan has delivered its list, the image-count entry of
    the epoch form holds the length of the list, and so does the status
    label, whatever the image files turn out to contain; the grid gets at
    most that many cells. *)
Theorem update_images_count int w files directory paths all_loaded p :
  ImageLoaderThread.run w directory = Some (paths, all_loaded) ->
  image_paths (image_viewer (update_images int files paths all_loaded p))
  = paths
  /\ EpochCalculator.images_entry
       (epoch_calculator (update_images int files paths all_loaded p))
     = Py.str (length paths)
  /\ Py.int (EpochCalculator.images_entry
               (epoch_calculator (update_images int files paths all_loaded p)))
     = Some (Z.of_nat (length paths))
  /\ image_count_label
       (image_viewer (update_images int files paths all_loaded p))
     = (if all_loaded then "Total Images Found: " ++ Py.str (length paths)
        else "Too many images. Displaying " ++ Py.str (length paths)
             ++ " images.")
  /\ exists cells,
      grid_layout (image_viewer (update_images int files paths all_loaded p))
      = (grid_layout (image_viewer p) ++ cells)%list
      /\ length cells <= length paths.
Proof.
  intros Hrun. apply run_length in Hrun as [Hle Hcap].
  destruct (update_images_widgets int files paths all_loaded p)
    as (Hcalc & _ & Hpaths & Hlabel & _).
  rewrite Hcalc, Hpaths, Hlabel.
  rewrite update_image_count_entry, (int_str_capped _ Hle).
  repeat split; try done.
  - unfold count_label. destruct all_loaded; [done|]. simpl.
    by rewrite Hcap.
  - apply update_images_grid.
Qed.

(** A scan of two files of which one does not decode: the count is 2. *)
Lemma update_images_count_witness :
  EpochCalculator.images_entry
    (epoch_calculator
       (update_images Py.int (Scenario.pics false)
          ["/pics/a.png"; "/pics/b.png"] true Scenario.chosen)) = "2"
  /\ image_count_label
       (image_viewer
          (update_images Py.int (Scenario.pics false)
             ["/pics/a.png"; "/pics/b.png"] true Scenario.chosen))
     = "Total Images Found: 2"
  /\ length (grid_layout
               (image_viewer
                  (update_images Py.int (Scenario.pics false)
                     ["/pics/a.png"; "/pics/b.png"] true Scenario.chosen)))
     = 1.
Proof.
  destruct (update_images_count Py.int (Scenario.pics false)
              (Scenario.pics false)
              "/pics" ["/pics/a.png"; "/pics/b.png"] true Scenario.chosen)
    as (_ & He & _ & Hl & _).
  - reflexivity.
  - split; [exact He|]. split; [exact Hl|]. vm_compute. reflexivity.
Defined.

End Count.

(** * Further properties *)

(** ** Names and paths *)

Section Names.
Import ImageLoaderThread FullView.

Lemma string_app_nil (b : string) : "" ++ b = b.
Proof. reflexivity. Qed.

Lemma string_app_cons x (a b : string) : String x a ++ b = String x (a ++ b).
Proof. reflexivity. Qed.

Lemma string_app_assoc (a b c : string) : (a ++ b) ++ c = a ++ b ++ c.
Proof.
  induction a as [|x a IH]; [done|]. by rewrite !string_app_cons, IH.
Qed.

Lemma string_length_app (a b : string) :
  String.length (a ++ b) = String.length a + String.length b.
Proof.
  induction a as [|x a IH]; [done|]. rewrite string_app_cons. simpl.
  by rewrite IH.
Qed.

Lemma substring_all s : String.substring 0 (String.length s) s = s.
Proof. induction s as [|c s IH]; simpl; [done|]. by rewrite IH. Qed.

Lemma substring_skip pre s k :
  String.substring (String.length pre) k (pre ++ s) = String.substring 0 k s.
Proof.
  induction pre as [|c pre IH]; [done|]. rewrite string_app_cons. apply IH.
Qed.

Lemma substring_split s m k :
  m + k = String.length s ->
  s = String.substring 0 m s ++ String.substring m k s.
Proof.
  revert m k. induction s as [|c s IH]; intros m k H; simpl in H.
  { by destruct m, k. }
  destruct m as [|m]; simpl.
  - simpl in H. subst k. simpl. by rewrite string_app_nil, substring_all.
  - rewrite string_app_cons. f_equal. apply IH. lia.
Qed.

(** [endswith] holds exactly of the strings that end with the suffix. *)
Lemma endswith_spec s suffix :
  Py.endswith s suffix = true <-> exists pre, s = pre ++ suffix.
Proof.
  unfold Py.endswith. split.
  - destruct (Nat.leb_spec (String.length suffix) (String.length s));
      [|discriminate].
    intros Hs%bool_decide_eq_true.
    exists (String.substring 0 (String.length s - String.length suffix) s).
    pose proof (substring_split s (String.length s - String.length suffix)
                  (String.length suffix)) as E.
    rewrite Hs in E. apply E. lia.
  - intros [pre ->]. rewrite string_length_app.
    rewrite (proj2 (Nat.leb_le _ _)) by lia.
    apply bool_decide_eq_true.
    replace (String.length pre + String.length suffix - String.length suffix)
      with (String.length pre) by lia.
    by rewrite substring_skip, substring_all.
Qed.

Lemma lower_app a b : Py.lower (a ++ b) = Py.lower a ++ Py.lower b.
Proof.
  induction a as [|c a IH]; [done|]. rewrite string_app_cons. simpl.
  by rewrite IH.
Qed.

Lemma lower_length s : String.length (Py.lower s) = String.length s.
Proof. induction s as [|c s IH]; simpl; [done|]. by rewrite IH. Qed.

Lemma lower_substring s n m :
  Py.lower (String.substring n m s) = String.substring n m (Py.lower s).
Proof.
  revert n m. induction s as [|c s IH]; intros n m.
  { by destruct n, m. }
  destruct n as [|n], m as [|m]; simpl; try done; by rewrite IH.
Qed.

Lemma endswith_lower f suffix :
  Py.endswith (Py.lower f) suffix = true
  <-> exists stem ext, f = stem ++ ext /\ Py.lower ext = suffix.
Proof.
  split.
  - unfold Py.endswith. rewrite lower_length.
    destruct (Nat.leb_spec (String.length suffix) (String.length f));
      [|discriminate].
    intros Hs%bool_decide_eq_true. rewrite <- lower_substring in Hs.
    eexists _, _. split; [|exact Hs]. apply substring_split. lia.
  - intros (stem & ext & -> & <-). rewrite lower_app.
    apply endswith_spec. by eexists.
Qed.

(** X1: a name is taken for an image exactly when it ends with an
    extension that, in lower case, is [.png], [.jpg], [.jpeg] or [.bmp];
    nothing else about the entry is looked at. *)
Theorem qualifies_by_extension f :
  qualifies f = true
  <-> exists stem ext,
      f = stem ++ ext /\ Py.lower ext ∈ [".png"; ".jpg"; ".jpeg"; ".bmp"].
Proof.
  unfold qualifies, Py.endswith_any, IMAGE_SUFFIXES.
  rewrite existsb_exists. split.
  - intros (suffix & Hin%list_elem_of_In & (stem & ext & -> & <-)%endswith_lower).
    by exists stem, ext.
  - intros (stem & ext & -> & Hin). exists (Py.lower ext).
    split; [by apply list_elem_of_In|]. apply endswith_lower. by eexists _, _.
Qed.

Lemma has_slash_app a b :
  has_slash (a ++ b) = has_slash a || has_slash b.
Proof.
  induction a as [|c a IH]; [done|]. rewrite string_app_cons. simpl.
  by rewrite IH, orb_assoc.
Qed.

Lemma basename_no_slash f : has_slash f = false -> basename f = f.
Proof.
  destruct f as [|c f]; simpl; [done|].
  intros [Hc Hf]%orb_false_iff. by rewrite Hf, Hc.
Qed.

Lemma basename_after_slash a f :
  has_slash f = false -> basename (a ++ "/" ++ f) = f.
Proof.
  intros Hf. induction a as [|c a IH].
  - rewrite string_app_nil, string_app_cons, string_app_nil. simpl.
    by rewrite Hf.
  - rewrite string_app_cons. simpl. rewrite has_slash_app.
    rewrite string_app_cons. simpl. by rewrite orb_true_r.
Qed.

(** X2: the full view of a scanned image is titled with the file's name
    in the listing: the base name of the joined path is the name itself,
    whatever the directory. *)
Theorem full_view_title_is_file_name load directory f :
  has_slash f = false ->
  windowTitle (view_full_image load (Py.path_join directory f))
  = "Full View - " ++ f
  /\ shown (view_full_image load (Py.path_join directory f))
     = load (Py.path_join directory f).
Proof.
  intros Hf. split; [|done]. simpl. f_equal.
  unfold Py.path_join.
  assert (basename (if bool_decide (directory = "") || Py.endswith directory "/"
                    then directory ++ f else directory ++ "/" ++ f) = f) as E.
  { case_bool_decide as Hd; simpl.
    - subst. by apply basename_no_slash.
    - destruct (Py.endswith directory "/") eqn:He.
      + apply endswith_spec in He as [pre ->].
        rewrite string_app_assoc. by apply basename_after_slash.
      + by apply basename_after_slash. }
  destruct f as [|c f]; [exact E|].
  destruct (Ascii.eqb_spec c "/") as [->|Hc]; [by simpl in Hf|].
  destruct c as [[] [] [] [] [] [] [] []]; try exact E. by destruct Hc.
Qed.

Lemma full_view_title_is_file_name_witness :
  windowTitle (view_full_image (fun _ => NullPixmap)
                 (Py.path_join "/pics" "a.png"))
  = "Full View - a.png"
  /\ shown (view_full_image (fun _ => NullPixmap)
              (Py.path_join "/pics" "a.png")) = NullPixmap.
Proof.
  apply (full_view_title_is_file_name (fun _ => NullPixmap) "/pics" "a.png").
  reflexivity.
Defined.

End Names.

(** ** The form, whatever is typed *)

Section FormStates.
Import EpochCalculator.

Local Ltac no_value :=
  simpl; intros _;
  split;
  [intros ? ?; split;
   [by intros [_ ?]|intros (?&?&?&?&?&?&?&?&_); congruence]|];
  split;
  [split; [by intros [_ ?]|intros (?&?&?&?&?&?&?&?&_); congruence]|];
  split; [split; [intros _; auto|done]|];
  split;
  [split; [discriminate|intros (?&?&?&?&?&?&?&?&_); congruence]
  |discriminate].

(** X3: what [calculate_epochs] does is decided by the four entries. It
    shows a number exactly when all four have a value, images, repeats and
    batch are positive and the division does not overflow; it asks for
    positive integers exactly when all four have a value and one of the
    three is not positive; it reports invalid input exactly when some entry
    has no value; and an exception leaves it exactly when all four have a
    value, the three are positive and the division overflows, the form
    then being as it was. *)
Theorem calculate_epochs_outcomes int self :
  (forall x y,
     calculate_epochs_raises int self = false
     /\ result_label (calculate_epochs int self) = OptimalEpochs x y <->
     exists i r b s,
       entry_value int (images_entry self) 0 = Some i
       /\ entry_value int (repeats_entry self) 0 = Some r
       /\ entry_value int (batch_entry self) 0 = Some b
       /\ entry_value int (steps_entry self) 2000 = Some s
       /\ (0 < i /\ 0 < r /\ 0 < b)%Z
       /\ Py.true_divide_overflows (s * b) (i * r) = false
       /\ x = (s * b)%Z /\ y = (i * r)%Z)
  /\ (calculate_epochs_raises int self = false
      /\ result_label (calculate_epochs int self)
         = Text "Enter valid positive integers." <->
      exists i r b s,
        entry_value int (images_entry self) 0 = Some i
        /\ entry_value int (repeats_entry self) 0 = Some r
        /\ entry_value int (batch_entry self) 0 = Some b
        /\ entry_value int (steps_entry self) 2000 = Some s
        /\ (i <= 0 \/ r <= 0 \/ b <= 0)%Z)
  /\ (calculate_epochs_raises int self = false
      /\ result_label (calculate_epochs int self)
         = Text "Invalid input. Enter integers only." <->
      entry_value int (images_entry self) 0 = None
      \/ entry_value int (repeats_entry self) 0 = None
      \/ entry_value int (batch_entry self) 0 = None
      \/ entry_value int (steps_entry self) 2000 = None)
  /\ (calculate_epochs_raises int self = true <->
      exists i r b s,
        entry_value int (images_entry self) 0 = Some i
        /\ entry_value int (repeats_entry self) 0 = Some r
        /\ entry_value int (batch_entry self) 0 = Some b
        /\ entry_value int (steps_entry self) 2000 = Some s
        /\ (0 < i /\ 0 < r /\ 0 < b)%Z
        /\ Py.true_divide_overflows (s * b) (i * r) = true)
  /\ (calculate_epochs_raises int self = true ->
      calculate_epochs int self = self).
Proof.
  assert (calculate_epochs_raises int self = true ->
          calculate_epochs int self = self) as Hsame.
  { unfold calculate_epochs_raises, calculate_epochs.
    by destruct (try_calculate int self). }
  revert Hsame. unfold calculate_epochs_raises.
  rewrite calculate_epochs_label.
  destruct (entry_value int (images_entry self) 0) as [i|] eqn:Hi;
    [|rewrite (try_calculate_no_value int self Images) by done; no_value].
  destruct (entry_value int (repeats_entry self) 0) as [r|] eqn:Hr;
    [|rewrite (try_calculate_no_value int self Repeats) by done; no_value].
  destruct (entry_value int (batch_entry self) 0) as [b|] eqn:Hb;
    [|rewrite (try_calculate_no_value int self Batch) by done; no_value].
  destruct (entry_value int (steps_entry self) 2000) as [s|] eqn:Hs;
    [|rewrite (try_calculate_no_value int self Steps) by done; no_value].
  rewrite (try_calculate_parsed _ _ _ _ _ _ Hi Hr Hb Hs).
  destruct (decide (0 < i /\ 0 < r /\ 0 < b)%Z) as [Hpos|Hneg].
  - rewrite !bool_decide_eq_true_2 by lia. simpl.
    destruct (Py.true_divide_overflows (s * b) (i * r)) eqn:Hover;
      intros Hsame; (split; [|split; [|split; [|split]]]).
    + intros x y. split; [by intros [? _]|].
      intros (?&?&?&?&[= <-]&[= <-]&[= <-]&[= <-]&_&?&_). congruence.
    + split; [by intros [? _]|].
      intros (?&?&?&?&[= <-]&[= <-]&[= <-]&_&?). lia.
    + split; [by intros [? _]|]. intros [?|[?|[?|?]]]; discriminate.
    + split; [|done]. intros _. by exists i, r, b, s.
    + exact Hsame.
    + intros x y. split.
      * intros [_ [= <- <-]]. by exists i, r, b, s.
      * by intros (?&?&?&?&[= <-]&[= <-]&[= <-]&[= <-]&_&_&->&->).
    + split; [by intros [_ ?]|].
      intros (?&?&?&?&[= <-]&[= <-]&[= <-]&_&?). lia.
    + split; [by intros [_ ?]|]. intros [?|[?|[?|?]]]; discriminate.
    + split; [discriminate|].
      intros (?&?&?&?&[= <-]&[= <-]&[= <-]&[= <-]&_&?). congruence.
    + discriminate.
  - assert (bool_decide (i > 0)%Z && bool_decide (r > 0)%Z
            && bool_decide (b > 0)%Z = false) as ->.
    { apply not_true_is_false. rewrite !andb_true_iff, !bool_decide_eq_true.
      lia. }
    intros _. split; [|split; [|split; [|split]]].
    + intros x y. split; [by intros [_ ?]|].
      intros (?&?&?&?&[= <-]&[= <-]&[= <-]&_&?&_). lia.
    + split; [|done]. intros _. exists i, r, b, s. repeat split. lia.
    + split; [by intros [_ ?]|]. intros [?|[?|[?|?]]]; discriminate.
    + split; [discriminate|].
      intros (?&?&?&?&[= <-]&[= <-]&[= <-]&_&?&_). lia.
    + discriminate.
Qed.

(** X4: an entry left blank counts as the text of its default, [0] for
    images, repeats and batch and [2000] for steps: the result label is the
    same either way. *)
Theorem blank_entry_is_its_default self f :
  result_label (calculate_epochs Py.int (with_text f "" self))
  = result_label
      (calculate_epochs Py.int
         (with_text f (match f with Steps => "2000" | _ => "0" end) self)).
Proof.
  rewrite !calculate_epochs_label. by destruct f.
Qed.

(** White space that [int] does not skip is no sign and no digit. *)
Lemma skip_spaces_only text :
  Forall (fun c => Py.is_space c = true) (String.list_ascii_of_string text) ->
  Py.skip_spaces text = ""
  \/ exists c r, Py.skip_spaces text = String c r
       /\ Py.is_space c = true /\ Py.is_int_space c = false.
Proof.
  induction text as [|c text IH]; simpl; [by left|].
  intros [Hc Hrest]%Forall_cons.
  destruct (Py.is_int_space c) eqn:Hi; [by apply IH|].
  right. by exists c, text.
Qed.

Lemma int_only_spaces text :
  Forall (fun c => Py.is_space c = true) (String.list_ascii_of_string text) ->
  Py.int text = None.
Proof.
  intros H. unfold Py.int.
  destruct (skip_spaces_only text H) as [->|(c & r & -> & Hc & Hi)];
    [reflexivity|].
  destruct c as [[] [] [] [] [] [] [] []];
    vm_compute in Hc, Hi; try discriminate; reflexivity.
Qed.

(** X5: an entry holding only white space is not blank: it is no
    integer, and the result label reports invalid input. *)
Theorem whitespace_entry_is_invalid self f :
  text_of f self <> "" ->
  Forall (fun c => Py.is_space c = true)
    (String.list_ascii_of_string (text_of f self)) ->
  result_label (calculate_epochs Py.int self)
  = Text "Invalid input. Enter integers only.".
Proof.
  intros Hne Hsp. rewrite calculate_epochs_label.
  by rewrite (try_calculate_unparsed Py.int self f Hne
                (int_only_spaces _ Hsp)).
Qed.

Lemma whitespace_entry_is_invalid_witness :
  result_label (calculate_epochs Py.int (Scenario.form "12" " " "4" ""))
  = Text "Invalid input. Enter integers only.".
Proof.
  apply (whitespace_entry_is_invalid (Scenario.form "12" " " "4" "") Repeats).
  - discriminate.
  - repeat constructor.
Defined.

(** A computation that raises nothing leaves the label in step with the
    entries. *)
Lemma calculate_epochs_in_sync int self :
  calculate_epochs_raises int self = false ->
  in_sync int (calculate_epochs int self).
Proof.
  unfold calculate_epochs_raises, calculate_epochs, in_sync.
  destruct (try_calculate int self) as [txt| |] eqn:E; [| |discriminate];
    intros _;
    match goal with
    | |- context [try_calculate int (set_result self ?t)] =>
        change (try_calculate int (set_result self t))
          with (try_calculate int self)
    end;
    by rewrite E.
Qed.

Lemma setText_in_sync int f txt self :
  setText_raises int f txt self = false ->
  self = EpochCalculator.init \/ in_sync int self ->
  setText int f txt self = EpochCalculator.init
  \/ in_sync int (setText int f txt self).
Proof.
  unfold setText, setText_raises. case_bool_decide as Ht; [done|].
  intros Hr _. right. by apply calculate_epochs_in_sync.
Qed.

End FormStates.

(** ** Choosing a directory *)

Section Choosing.
Import ImageViewer.

(** The dialog, in closed form: each press of Ok starts one scan. *)
Lemma show_directory_selector_dialog_eq SCRIPT_DIR directories clicks p :
  clicks <> [] ->
  show_directory_selector_dialog SCRIPT_DIR directories clicks p
  = with_viewer
      {| image_paths := [];
         image_count_label := image_count_label (image_viewer p);
         grid_layout := [];
         loader_threads :=
           loader_threads (image_viewer p)
           ++ map (fun i => Py.path_join SCRIPT_DIR (currentText directories i))
                clicks |} p.
Proof.
  unfold show_directory_selector_dialog. revert p.
  induction clicks as [|i clicks IH]; intros p Hne; [done|]. simpl.
  destruct clicks as [|j clicks]; [done|].
  rewrite IH by done. unfold with_viewer. simpl. f_equal. f_equal.
  by rewrite <- app_assoc.
Qed.

Lemma browse_directory_viewer_only SCRIPT_DIR w folder_path clicks p p' :
  browse_directory SCRIPT_DIR w folder_path clicks p = Some p' ->
  viewer_only p p'.
Proof.
  unfold browse_directory, load_images.
  case_bool_decide; [|by intros [= <-]].
  destruct (path_exists w folder_path); simpl; [|by intros [= <-]].
  destruct (find_matching_dataset_dirs w folder_path) as [dirs|];
    [|discriminate].
  simpl. case_bool_decide; intros [= <-]; [|done].
  destruct clicks as [|i clicks]; [done|].
  by rewrite show_directory_selector_dialog_eq.
Qed.

(** X7: what choosing a directory starts. Nothing when the directory
    dialog was cancelled or the directory does not exist, in which case
    the status label says so; a scan of the directory itself when none of
    its entries is a dataset folder; otherwise one scan for each press of
    Ok in the selection dialog, of the current name joined to the script's
    directory, and none when the dialog is cancelled at once. Nothing but
    the viewer's widgets changes. *)
Theorem browse_starts_scans int SCRIPT_DIR w folder_path clicks p p' :
  handle int SCRIPT_DIR w (BrowseClicked folder_path clicks) p = Some p' ->
  viewer_only p p'
  /\ loader_threads (image_viewer p')
     = (loader_threads (image_viewer p)
        ++ (if bool_decide (folder_path = "")
               || negb (path_exists w folder_path) then []
            else match find_matching_dataset_dirs w folder_path with
                 | Some [] => [folder_path]
                 | Some directories =>
                     map (fun i => Py.path_join SCRIPT_DIR
                                     (currentText directories i)) clicks
                 | None => []
                 end))%list
  /\ (folder_path <> "" -> path_exists w folder_path = false ->
      image_count_label (image_viewer p') = "Error: Directory does not exist."
      /\ image_paths (image_viewer p') = image_paths (image_viewer p)
      /\ grid_layout (image_viewer p') = grid_layout (image_viewer p)).
Proof.
  simpl. intros H. split; [by eapply browse_directory_viewer_only|].
  revert H. unfold browse_directory, load_images.
  case_bool_decide as Hf; simpl.
  2:{ intros [= <-]. rewrite bool_decide_eq_true_2 by tauto.
      simpl. rewrite app_nil_r. split; [done|]. intros ?. tauto. }
  rewrite bool_decide_eq_false_2 by done. simpl.
  destruct (path_exists w folder_path); simpl.
  2:{ intros [= <-]. simpl. by rewrite app_nil_r. }
  destruct (find_matching_dataset_dirs w folder_path) as [dirs|];
    [|discriminate].
  simpl. case_bool_decide as Hd; intros [= <-].
  - split; [|done]. destruct dirs as [|d dirs]; [done|].
    destruct clicks as [|i clicks]; [simpl; by rewrite app_nil_r|].
    by rewrite show_directory_selector_dialog_eq.
  - split; [|done]. by destruct dirs.
Qed.

Lemma browse_starts_scans_witness :
  loader_threads
    (image_viewer
       (default MainWindow.init
          (handle Py.int "/app" Scenario.dataset (BrowseClicked "/data" [0; 0])
             MainWindow.init)))
  = ["/app/AI"; "/app/AI"].
Proof.
  destruct (handle Py.int "/app" Scenario.dataset (BrowseClicked "/data" [0; 0])
              MainWindow.init) as [p'|] eqn:H; [|by vm_compute in H].
  destruct (browse_starts_scans _ _ _ _ _ _ _ H) as (_ & E & _).
  simpl. rewrite E. reflexivity.
Defined.

End Choosing.

(** ** The form inside the process *)

Section FormInProcess.
Import ImageViewer.

Lemma load_and_cache_image_unhandled w img_path p :
  unhandled (load_and_cache_image w img_path p).2 = unhandled p.
Proof.
  by destruct (load_and_cache_image_cases w img_path p)
    as [(pm & _ & ->)|[(_ & _ & ->)|(b' & _ & _ & ->)]].
Qed.

Lemma display_loop_unhandled w paths row col p :
  unhandled (display_loop w paths row col p) = unhandled p.
Proof.
  revert row col p. induction paths as [|img_path rest IH]; intros row col p;
    [done|].
  simpl. pose proof (load_and_cache_image_unhandled w img_path p) as Hl.
  destruct (load_and_cache_image w img_path p) as [pixmap p1]. simpl in Hl.
  destruct (isNull pixmap); [|case_bool_decide]; rewrite IH; exact Hl.
Qed.

(** [update_images], with the list and the count written out *)
Lemma update_images_eq int w paths all_loaded p :
  update_images int w paths all_loaded p
  = (if EpochCalculator.setText_raises int EpochCalculator.Images
          (Py.str (length paths)) (epoch_calculator p)
     then raise_unhandled "OverflowError"
     else display_images w)
      (with_calculator
         (EpochCalculator.update_image_count int (length paths)
            (epoch_calculator p))
         (with_viewer
            (with_count_label (count_label paths all_loaded)
               (with_paths paths (image_viewer p))) p)).
Proof. unfold update_images. simpl. by case_match. Qed.

(** An exception leaves [update_images] exactly when one leaves the
    computation that the new count sets off. *)
Lemma update_images_unhandled int w paths all_loaded p :
  unhandled (update_images int w paths all_loaded p)
  = (unhandled p
     ++ if EpochCalculator.setText_raises int EpochCalculator.Images
             (Py.str (length paths)) (epoch_calculator p)
        then ["OverflowError"] else [])%list.
Proof.
  rewrite update_images_eq. case_match; [done|].
  unfold display_images. rewrite display_loop_unhandled. simpl.
  by rewrite app_nil_r.
Qed.

(** An event after which no exception is unhandled leaves the form alone
    or sets one of its entries, no exception leaving the computation. *)
Lemma handle_form int SCRIPT_DIR w e p p' :
  handle int SCRIPT_DIR w e p = Some p' ->
  unhandled p' = [] ->
  unhandled p = []
  /\ (epoch_calculator p' = epoch_calculator p
      \/ exists f txt,
          EpochCalculator.setText_raises int f txt (epoch_calculator p) = false
          /\ epoch_calculator p'
             = EpochCalculator.setText int f txt (epoch_calculator p)).
Proof.
  destruct e as [f txt|folder_path clicks|n|n|file_path]; simpl.
  - intros [= <-]. unfold entry_edited.
    destruct (EpochCalculator.setText_raises int f txt (epoch_calculator p))
      eqn:Hr; simpl; intros Hu; [by destruct (unhandled p)|].
    split; [done|]. right. by exists f, txt.
  - intros (_ & _ & _ & -> & E & _)%browse_directory_viewer_only.
    intros Hu. split; [done|by left].
  - unfold loader_finished.
    destruct (loader_threads (image_viewer p) !! n) as [directory|];
      [|discriminate].
    simpl. destruct (ImageLoaderThread.run w directory) as [[paths flag]|];
      [|discriminate].
    intros [= <-]. rewrite update_images_unhandled. simpl.
    destruct (update_images_widgets int w paths flag
                (with_viewer
                   (with_threads (delete n (loader_threads (image_viewer p)))
                      (image_viewer p)) p)) as [-> _].
    simpl.
    destruct (EpochCalculator.setText_raises int EpochCalculator.Images
                (Py.str (length paths)) (epoch_calculator p)) eqn:Hr;
      intros Hu; [by destruct (unhandled p)|].
    rewrite app_nil_r in Hu. split; [done|]. right.
    by exists EpochCalculator.Images, (Py.str (length paths)).
  - destruct (grid_layout (image_viewer p) !! n); [|discriminate].
    intros [= <-] Hu. split; [done|by left].
  - intros [= <-]. unfold MainWindow.import_theme.
    case_bool_decide; [|by split; [|left]].
    destruct (read_text w file_path); simpl; by split; [|left].
Qed.

Lemma step_form int SCRIPT_DIR p p' :
  step int SCRIPT_DIR p p' ->
  unhandled p' = [] ->
  unhandled p = []
  /\ (epoch_calculator p' = epoch_calculator p
      \/ exists f txt,
          EpochCalculator.setText_raises int f txt (epoch_calculator p) = false
          /\ epoch_calculator p'
             = EpochCalculator.setText int f txt (epoch_calculator p)).
Proof.
  intros [w e p1 p2 H|w img_path p1|c p1].
  - by eapply handle_form.
  - rewrite load_and_cache_image_unhandled. intros Hu. split; [done|].
    left. apply load_and_cache_image_widgets.
  - simpl. intros Hu. split; [done|by left].
Qed.

Lemma steps_form_in_sync int SCRIPT_DIR p p' :
  rtc (step int SCRIPT_DIR) p p' ->
  unhandled p' = [] ->
  epoch_calculator p = EpochCalculator.init
  \/ in_sync int (epoch_calculator p) ->
  epoch_calculator p' = EpochCalculator.init
  \/ in_sync int (epoch_calculator p').
Proof.
  induction 1 as [p|p1 p2 p3 H12 H23 IH]; [done|].
  intros Hu3 H1. apply (IH Hu3).
  assert (unhandled p2 = []) as Hu2.
  { clear IH H12 H1. induction H23 as [p|q1 q2 q3 Hq _ IHq]; [done|].
    by destruct (step_form _ _ _ _ Hq (IHq Hu3)). }
  destruct (step_form _ _ _ _ H12 Hu2) as [_ [->|(f & txt & Hr & ->)]];
    [done|].
  by apply setText_in_sync.
Qed.

(** X8: in every state of the process in which no exception is
    unhandled, the form is as it was created, or its result label shows
    what its four entries compute to: no event leaves a stale result
    behind. *)
Theorem form_label_in_sync int SCRIPT_DIR p :
  reachable int SCRIPT_DIR p ->
  unhandled p = [] ->
  epoch_calculator p = EpochCalculator.init
  \/ match EpochCalculator.try_calculate int (epoch_calculator p) with
     | EpochCalculator.Shown txt =>
         EpochCalculator.result_label (epoch_calculator p) = txt
     | EpochCalculator.ValueError =>
         EpochCalculator.result_label (epoch_calculator p)
         = Text "Invalid input. Enter integers only."
     | EpochCalculator.OverflowError => False
     end.
Proof.
  intros H Hu. apply (steps_form_in_sync _ _ _ _ H Hu). by left.
Qed.

(** Repeats 10 and batch 2 typed, no images yet. *)
Lemma form_label_in_sync_witness :
  epoch_calculator Cases.ready = EpochCalculator.init
  \/ match EpochCalculator.try_calculate Py.int (epoch_calculator Cases.ready)
     with
     | EpochCalculator.Shown txt =>
         EpochCalculator.result_label (epoch_calculator Cases.ready) = txt
     | EpochCalculator.ValueError =>
         EpochCalculator.result_label (epoch_calculator Cases.ready)
         = Text "Invalid input. Enter integers only."
     | EpochCalculator.OverflowError => False
     end.
Proof.
  apply (form_label_in_sync Py.int "/app" Cases.ready).
  - apply (handle_all_steps Py.int "/app" Cases.typed).
    vm_compute. reflexivity.
  - reflexivity.
Defined.

(** X9: the count of a delivered scan goes into the computation. In a
    state of the process with no exception unhandled, when the text of the
    count reads back as the count and repeats, batch and steps have values:
    if the count, repeats and batch are positive, the result label after
    the delivery is the quotient of steps * batch by count * repeats,
    unless that division overflows, in which case the exception is
    unhandled, the label is as it was and nothing is added to the grid;
    otherwise the label asks for positive integers, as for an empty
    folder. *)
Theorem scan_count_feeds_epochs int SCRIPT_DIR w paths all_loaded p r b s :
  reachable int SCRIPT_DIR p ->
  unhandled p = [] ->
  int (Py.str (length paths)) = Some (Z.of_nat (length paths)) ->
  EpochCalculator.entry_value int
    (EpochCalculator.repeats_entry (epoch_calculator p)) 0 = Some r ->
  EpochCalculator.entry_value int
    (EpochCalculator.batch_entry (epoch_calculator p)) 0 = Some b ->
  EpochCalculator.entry_value int
    (EpochCalculator.steps_entry (epoch_calculator p)) 2000 = Some s ->
  let p' := update_images int w paths all_loaded p in
  if bool_decide (0 < length paths) && bool_decide (0 < r)%Z
     && bool_decide (0 < b)%Z
  then
    if Py.true_divide_overflows (s * b) (Z.of_nat (length paths) * r)
    then unhandled p' = ["OverflowError"]
         /\ EpochCalculator.result_label (epoch_calculator p')
            = EpochCalculator.result_label (epoch_calculator p)
         /\ grid_layout (image_viewer p') = grid_layout (image_viewer p)
    else unhandled p' = []
         /\ EpochCalculator.result_label (epoch_calculator p')
            = OptimalEpochs (s * b) (Z.of_nat (length paths) * r)
  else unhandled p' = []
       /\ EpochCalculator.result_label (epoch_calculator p')
          = Text "Enter valid positive integers.".
Proof.
  intros Hreach Hu Hint Hr Hb Hs p'.
  pose proof (steps_form_in_sync _ _ _ _ Hreach Hu (or_introl eq_refl))
    as Hsync.
  pose proof (update_images_unhandled int w paths all_loaded p) as Hu'.
  pose proof (update_images_eq int w paths all_loaded p) as Heq.
  destruct (update_images_widgets int w paths all_loaded p) as [Hform _].
  fold p' in Hu', Heq, Hform. rewrite Hu in Hu'. simpl in Hu'.
  rewrite Hu', Hform. clear Hu' Hform.
  set (n := length paths) in *. set (form := epoch_calculator p) in *.
  set (outcome :=
         if bool_decide (0 < n) && bool_decide (0 < r)%Z
            && bool_decide (0 < b)%Z
         then if Py.true_divide_overflows (s * b) (Z.of_nat n * r)
              then EpochCalculator.OverflowError
              else EpochCalculator.Shown
                     (OptimalEpochs (s * b) (Z.of_nat n * r))
         else EpochCalculator.Shown (Text "Enter valid positive integers.")).
  assert (forall self,
            EpochCalculator.images_entry self = Py.str n ->
            EpochCalculator.repeats_entry self
            = EpochCalculator.repeats_entry form ->
            EpochCalculator.batch_entry self
            = EpochCalculator.batch_entry form ->
            EpochCalculator.steps_entry self
            = EpochCalculator.steps_entry form ->
            EpochCalculator.try_calculate int self = outcome) as Htry.
  { intros self Ei Er Eb Es.
    rewrite (try_calculate_parsed int self (Z.of_nat n) r b s).
    - unfold outcome.
      assert (bool_decide (Z.of_nat n > 0)%Z = bool_decide (0 < n)) as ->.
      { apply bool_decide_ext. lia. }
      assert (bool_decide (r > 0)%Z = bool_decide (0 < r)%Z) as ->.
      { apply bool_decide_ext. lia. }
      assert (bool_decide (b > 0)%Z = bool_decide (0 < b)%Z) as ->.
      { apply bool_decide_ext. lia. }
      reflexivity.
    - rewrite Ei. unfold EpochCalculator.entry_value.
      by rewrite bool_decide_eq_false_2 by apply str_nonempty.
    - by rewrite Er.
    - by rewrite Eb.
    - by rewrite Es. }
  unfold EpochCalculator.update_image_count, EpochCalculator.setText,
    EpochCalculator.setText_raises in *.
  case_bool_decide as Htext.
  - (* the entry holds the count already *)
    pose proof (Htry form Htext eq_refl eq_refl eq_refl) as Hform.
    destruct Hsync as [Hinit|Hsync].
    { rewrite Hinit in Htext. by destruct (str_nonempty n). }
    unfold in_sync in Hsync. rewrite Hform in Hsync. unfold outcome in Hsync.
    destruct (bool_decide (0 < n) && bool_decide (0 < r)%Z
              && bool_decide (0 < b)%Z); [|done].
    by destruct (Py.true_divide_overflows (s * b) (Z.of_nat n * r)).
  - pose proof (Htry (EpochCalculator.with_text EpochCalculator.Images
                        (Py.str n) form)
                  eq_refl eq_refl eq_refl eq_refl) as Hform.
    unfold EpochCalculator.calculate_epochs_raises.
    rewrite calculate_epochs_label, Hform. unfold outcome.
    destruct (bool_decide (0 < n) && bool_decide (0 < r)%Z
              && bool_decide (0 < b)%Z); [|done].
    destruct (Py.true_divide_overflows (s * b) (Z.of_nat n * r)) eqn:Hover;
      [|done].
    split; [done|]. split; [done|].
    rewrite Heq. unfold EpochCalculator.calculate_epochs_raises.
    by rewrite Hform.
Qed.

(** Two images delivered to the form with repeats 10 and batch 2: 2000
    steps times 2 over 2 images times 10. *)
Lemma scan_count_feeds_epochs_witness :
  unhandled
    (update_images Py.int (Scenario.pics true)
       ["/pics/a.png"; "/pics/b.png"] true Cases.ready) = []
  /\ EpochCalculator.result_label
       (epoch_calculator
          (update_images Py.int (Scenario.pics true)
             ["/pics/a.png"; "/pics/b.png"] true Cases.ready))
     = OptimalEpochs 4000 20.
Proof.
  apply (scan_count_feeds_epochs Py.int "/app" (Scenario.pics true)
           ["/pics/a.png"; "/pics/b.png"] true Cases.ready 10 2 2000).
  - apply (handle_all_steps Py.int "/app" Cases.typed).
    vm_compute. reflexivity.
  - reflexivity.
  - reflexivity.
  - reflexivity.
  - reflexivity.
  - reflexivity.
Defined.

End FormInProcess.

(** ** Scans from start to delivery *)

Section Scans.
Import ImageLoaderThread ImageViewer.

(** X10: what a scan delivers. Every path is the directory joined to a
    name of the listing that qualifies, in listing order; there are never
    more than 50; and the flag is [true] exactly when every qualifying
    name was delivered. *)
Theorem run_delivers_only_images w directory paths all_loaded :
  run w directory = Some (paths, all_loaded) ->
  exists names,
    listdir w directory = Some names
    /\ paths `prefix_of` loaded_image_paths directory names
    /\ length paths <= 50
    /\ (all_loaded = true <-> paths = loaded_image_paths directory names)
    /\ forall path, path ∈ paths ->
         exists f, f ∈ names /\ qualifies f = true
                   /\ path = Py.path_join directory f.
Proof.
  unfold run. destruct (listdir w directory) as [names|]; [|discriminate].
  simpl. intros H. exists names. split; [done|].
  assert (forall path, path ∈ loaded_image_paths directory names ->
            exists f, f ∈ names /\ qualifies f = true
                      /\ path = Py.path_join directory f) as Hall.
  { intros path (f & <- & Hf)%list_elem_of_In%in_map_iff.
    apply list_elem_of_In, list_elem_of_filter in Hf as [Hq Hin].
    by exists f. }
  revert H. unfold MAX_IMAGES_TO_DISPLAY. case_bool_decide as Hn;
    intros [= <- <-].
  - split; [apply prefix_take|]. rewrite length_take.
    split; [lia|]. split.
    + split; [discriminate|]. intros E.
      apply (f_equal length) in E. rewrite length_take in E. lia.
    + intros path Hin. apply Hall. by eapply subseteq_take.
  - split; [done|]. split; [lia|]. split; [done|exact Hall].
Qed.

Lemma run_delivers_only_images_witness :
  exists names,
    listdir (Scenario.folder 60) "/data" = Some names
    /\ map (Py.path_join "/data") (Scenario.numbered 50)
       `prefix_of` loaded_image_paths "/data" names
    /\ length (map (Py.path_join "/data") (Scenario.numbered 50)) <= 50
    /\ (false = true
        <-> map (Py.path_join "/data") (Scenario.numbered 50)
            = loaded_image_paths "/data" names)
    /\ forall path,
        path ∈ map (Py.path_join "/data") (Scenario.numbered 50) ->
        exists f, f ∈ names /\ qualifies f = true
                  /\ path = Py.path_join "/data" f.
Proof.
  apply (run_delivers_only_images (Scenario.folder 60) "/data").
  vm_compute. reflexivity.
Defined.

(** X11: the folders offered for selection are exactly the entries of
    the chosen directory that are directories and whose name is, up to
    letter case, [ai], [dataset] or [datasets]; they are offered in
    listing order. *)
Theorem dataset_folders_by_name w directory matching_dirs :
  find_matching_dataset_dirs w directory = Some matching_dirs ->
  exists names,
    listdir w directory = Some names
    /\ matching_dirs `sublist_of` names
    /\ forall d, d ∈ matching_dirs <->
         d ∈ names /\ isdir w (Py.path_join directory d) = true
         /\ (Py.lower d = "ai" \/ Py.lower d = "dataset"
             \/ Py.lower d = "datasets").
Proof.
  unfold find_matching_dataset_dirs.
  destruct (listdir w directory) as [names|]; [|discriminate].
  simpl. intros [= <-]. exists names. split; [done|].
  split; [apply sublist_filter|].
  intros d. rewrite list_elem_of_filter. unfold matches_dataset, Py.any.
  rewrite andb_true_iff. simpl. rewrite !orb_true_iff, !bool_decide_eq_true.
  change (Py.lower "AI") with "ai". change (Py.lower "Dataset") with "dataset".
  change (Py.lower "DATASETS") with "datasets".
  intuition discriminate.
Qed.

Lemma dataset_folders_by_name_witness :
  exists names,
    listdir Scenario.dataset "/data" = Some names
    /\ ["AI"] `sublist_of` names
    /\ forall d, d ∈ ["AI"] <->
         d ∈ names /\ isdir Scenario.dataset (Py.path_join "/data" d) = true
         /\ (Py.lower d = "ai" \/ Py.lower d = "dataset"
             \/ Py.lower d = "datasets").
Proof.
  apply (dataset_folders_by_name Scenario.dataset "/data" ["AI"]).
  reflexivity.
Defined.

(** X12: a scan from the choice to the delivery. When the chosen
    directory exists and none of its entries is a dataset folder, choosing
    it empties the viewer and starts one scan; when that scan finishes it
    lists the directory as it is then, and the viewer holds the first 50
    qualifying paths, a grid of at most that many cells, and the count in
    the form's images entry. *)
Theorem choose_then_deliver int SCRIPT_DIR w w' directory clicks names names'
  p :
  directory <> "" ->
  path_exists w directory = true ->
  listdir w directory = Some names ->
  Forall (fun d => matches_dataset w directory d = false) names ->
  listdir w' directory = Some names' ->
  exists p1 p2,
    handle int SCRIPT_DIR w (BrowseClicked directory clicks) p = Some p1
    /\ image_paths (image_viewer p1) = []
    /\ grid_layout (image_viewer p1) = []
    /\ handle int SCRIPT_DIR w'
         (LoaderFinished (length (loader_threads (image_viewer p)))) p1
       = Some p2
    /\ image_paths (image_viewer p2)
       = take 50 (loaded_image_paths directory names')
    /\ loader_threads (image_viewer p2) = loader_threads (image_viewer p)
    /\ length (grid_layout (image_viewer p2))
       <= length (image_paths (image_viewer p2))
    /\ EpochCalculator.images_entry (epoch_calculator p2)
       = Py.str (length (image_paths (image_viewer p2))).
Proof.
  intros Hne Hex Hls Hnone Hls'.
  assert (find_matching_dataset_dirs w directory = Some []) as Hfind.
  { unfold find_matching_dataset_dirs. rewrite Hls. simpl. f_equal.
    clear Hls. induction Hnone as [|d l Hd _ IH]; [done|].
    rewrite filter_cons_False; [exact IH|]. by rewrite Hd. }
  exists (start_loading_images directory p). eexists.
  split.
  { simpl. unfold browse_directory, load_images.
    rewrite bool_decide_eq_true_2, Hex, Hfind by done. reflexivity. }
  split; [done|]. split; [done|].
  set (n := length (loader_threads (image_viewer p))).
  assert (ImageLoaderThread.run w' directory
          = Some (take 50 (loaded_image_paths directory names'),
                  bool_decide (length (loaded_image_paths directory names')
                               <= 50))) as Hrun.
  { unfold run. rewrite Hls'. simpl. unfold MAX_IMAGES_TO_DISPLAY.
    case_bool_decide.
    - by rewrite bool_decide_eq_false_2 by lia.
    - rewrite bool_decide_eq_true_2 by lia. by rewrite take_ge by lia. }
  split.
  { simpl. unfold loader_finished. simpl. fold n.
    rewrite lookup_app_r, Nat.sub_diag by done. simpl. rewrite Hrun.
    reflexivity. }
  match goal with
  | |- context [update_images int w' ?l ?fl ?q] =>
      destruct (update_images_widgets int w' l fl q)
        as (Hcalc & _ & Hpaths & _ & Hthreads);
      destruct (update_images_grid int w' l fl q) as (cells & Hgrid & Hlen)
  end.
  rewrite Hpaths, Hthreads, Hcalc, Hgrid, update_image_count_entry.
  split; [done|]. split; [|done].
  simpl. unfold delete. fold n. clear.
  induction (loader_threads (image_viewer p)) as [|t l IH]; [done|].
  simpl. f_equal. apply IH.
Qed.

Lemma choose_then_deliver_witness :
  exists p1 p2,
    handle Py.int "/app" (Scenario.folder 60) (BrowseClicked "/data" [])
      MainWindow.init = Some p1
    /\ image_paths (image_viewer p1) = []
    /\ grid_layout (image_viewer p1) = []
    /\ handle Py.int "/app" (Scenario.folder 12)
         (LoaderFinished (length (loader_threads
                                    (image_viewer MainWindow.init)))) p1
       = Some p2
    /\ image_paths (image_viewer p2)
       = take 50 (loaded_image_paths "/data"
                    ("notes.txt" :: Scenario.numbered 12))
    /\ loader_threads (image_viewer p2)
       = loader_threads (image_viewer MainWindow.init)
    /\ length (grid_layout (image_viewer p2))
       <= length (image_paths (image_viewer p2))
    /\ EpochCalculator.images_entry (epoch_calculator p2)
       = Py.str (length (image_paths (image_viewer p2))).
Proof.
  apply (choose_then_deliver Py.int "/app" (Scenario.folder 60)
           (Scenario.folder 12) "/data" [] ("notes.txt" :: Scenario.numbered 60)
           ("notes.txt" :: Scenario.numbered 12) MainWindow.init).
  - discriminate.
  - reflexivity.
  - reflexivity.
  - apply Forall_forall. intros d _. reflexivity.
  - reflexivity.
Defined.

End Scans.

(** ** What a pass puts on the grid *)

Section Grid.
Import ImageViewer.

(** X13: when every path of the list has a cached thumbnail or decodes,
    a pass adds one cell per path, in the order of the list, and prints
    nothing. *)
Theorem display_images_renders_all w p :
  Forall (decodable w p) (image_paths (image_viewer p)) ->
  exists cells,
    grid_layout (image_viewer (display_images w p))
    = (grid_layout (image_viewer p) ++ cells)%list
    /\ map cell_path cells = image_paths (image_viewer p)
    /\ length cells = length (image_paths (image_viewer p))
    /\ stdout (display_images w p) = stdout p.
Proof.
  intros Hall. unfold display_images.
  destruct (display_loop_decodable w _ 0 0 p Hall)
    as (cells & Hg & Hm & Hs & _).
  exists cells. repeat split; try done. by rewrite <- Hm, length_map.
Qed.

Lemma display_images_renders_all_witness :
  exists cells,
    grid_layout (image_viewer
                   (display_images (Scenario.pics true) Scenario.listed))
    = (grid_layout (image_viewer Scenario.listed) ++ cells)%list
    /\ map cell_path cells = image_paths (image_viewer Scenario.listed)
    /\ length cells = length (image_paths (image_viewer Scenario.listed))
    /\ stdout (display_images (Scenario.pics true) Scenario.listed)
       = stdout Scenario.listed.
Proof.
  apply (display_images_renders_all (Scenario.pics true) Scenario.listed).
  repeat constructor; vm_compute; discriminate.
Defined.

(** X14: the cells a pass adds fill the grid row by row, five to a row:
    the k-th cell added, counting from 0 and leaving out the paths that
    were skipped, is in row k / 5 and column k mod 5. *)
Theorem display_images_rows_of_five w p :
  exists cells,
    grid_layout (image_viewer (display_images w p))
    = (grid_layout (image_viewer p) ++ cells)%list
    /\ forall k c, cells !! k = Some c ->
         cell_row c = k / 5 /\ cell_col c = k mod 5.
Proof.
  unfold display_images.
  destruct (display_loop_rows_of_five w (image_paths (image_viewer p)) 0 0 p)
    as (cells & Hg & Hpos); [lia|].
  exists cells. split; [done|]. intros k c Hk.
  destruct (Hpos k c Hk) as [Hcol Hsum]. split.
  - apply (Nat.div_unique k 5 _ (cell_col c)); lia.
  - apply (Nat.mod_unique k 5 (cell_row c)); lia.
Qed.

(** Every cell a pass adds shows the cache's entry for its path. *)
Lemma display_loop_cells_cached w paths row col p :
  exists cells,
    grid_layout (image_viewer (display_loop w paths row col p))
    = (grid_layout (image_viewer p) ++ cells)%list
    /\ forall c, c ∈ cells ->
         cell_path c ∈ paths
         /\ isNull (cell_pixmap c) = false
         /\ image_cache (display_loop w paths row col p) !! cell_path c
            = Some (cell_pixmap c).
Proof.
  revert row col p. induction paths as [|img_path rest IH]; intros row col p.
  { exists []. rewrite app_nil_r. split; [done|]. by intros c ?%elem_of_nil. }
  simpl. destruct (load_and_cache_image_widgets w img_path p) as [_ Hg].
  pose proof (load_and_cache_image_cached w img_path p) as Hcached.
  destruct (load_and_cache_image w img_path p) as [pixmap p1].
  simpl in Hg. specialize (Hcached pixmap p1 eq_refl).
  destruct (isNull pixmap) eqn:Hnull.
  { destruct (IH row col p1) as (cells & Hc & Hcells).
    exists cells. rewrite Hc, Hg. split; [done|].
    intros c Hin. destruct (Hcells c Hin) as (? & ? & ?).
    split; [by apply list_elem_of_further|done]. }
  set (c0 := {| cell_pixmap := pixmap; cell_path := img_path;
                cell_row := row; cell_col := col |}).
  assert (forall r' c',
    exists cells,
      grid_layout (image_viewer (display_loop w rest r' c' (addWidget c0 p1)))
      = (grid_layout (image_viewer p) ++ cells)%list
      /\ forall c, c ∈ cells ->
           cell_path c ∈ img_path :: rest
           /\ isNull (cell_pixmap c) = false
           /\ image_cache (display_loop w rest r' c' (addWidget c0 p1))
              !! cell_path c = Some (cell_pixmap c)) as Hboth.
  { intros r' c'.
    destruct (IH r' c' (addWidget c0 p1)) as (cells & Hc & Hcells).
    destruct (display_loop_cache_grows w rest r' c' (addWidget c0 p1))
      as [Hsub _].
    exists (c0 :: cells). rewrite Hc. simpl. rewrite Hg, <- app_assoc.
    split; [done|]. intros c [->|Hin]%elem_of_cons.
    - simpl. split; [apply list_elem_of_here|]. split; [done|].
      eapply lookup_weaken; [|exact Hsub]. by apply Hcached.
    - destruct (Hcells c Hin) as (? & ? & ?).
      split; [by apply list_elem_of_further|done]. }
  case_bool_decide; apply Hboth.
Qed.

(** X15: every thumbnail a pass puts on the grid is a decoded bitmap, is
    shown for a path of the list, and is the cache's entry for that path
    when the pass ends. *)
Theorem rendered_cells_are_cached w p :
  exists cells,
    grid_layout (image_viewer (display_images w p))
    = (grid_layout (image_viewer p) ++ cells)%list
    /\ forall c, c ∈ cells ->
         cell_path c ∈ image_paths (image_viewer p)
         /\ isNull (cell_pixmap c) = false
         /\ image_cache (display_images w p) !! cell_path c
            = Some (cell_pixmap c).
Proof.
  unfold display_images.
  destruct (display_loop_cells_cached w (image_paths (image_viewer p)) 0 0 p)
    as (cells & Hgrid & Hcells).
  exists cells. split; [exact Hgrid|]. intros c Hin. exact (Hcells c Hin).
Qed.

(** A pass reads only listed paths that have no cached thumbnail. *)
Lemma display_loop_reads_uncached w paths row col p :
  exists new,
    reads (display_loop w paths row col p) = (reads p ++ new)%list
    /\ forall x, x ∈ new -> x ∈ paths /\ image_cache p !! x = None.
Proof.
  revert row col p. induction paths as [|img_path rest IH]; intros row col p.
  { exists []. rewrite app_nil_r. split; [done|]. by intros x ?%elem_of_nil. }
  simpl.
  assert (exists r1,
            reads (load_and_cache_image w img_path p).2 = (reads p ++ r1)%list
            /\ forall x, x ∈ r1 -> x = img_path /\ image_cache p !! x = None)
    as (r1 & Hr1 & Hfirst).
  { destruct (load_and_cache_image_cases w img_path p)
      as [(pm & _ & ->)|[(Hc & _ & ->)|(b' & Hc & _ & ->)]]; simpl.
    - exists []. rewrite app_nil_r. split; [done|]. by intros x ?%elem_of_nil.
    - exists [img_path]. split; [done|]. by intros x ->%list_elem_of_singleton.
    - exists [img_path]. split; [done|].
      by intros x ->%list_elem_of_singleton. }
  pose proof (load_and_cache_image_grows w img_path p) as Hsub.
  destruct (load_and_cache_image w img_path p) as [pixmap p1].
  simpl in Hr1, Hsub.
  assert (forall r' c' q,
    image_cache q = image_cache p1 -> reads q = reads p1 ->
    exists new,
      reads (display_loop w rest r' c' q) = (reads p ++ new)%list
      /\ forall x, x ∈ new ->
           x ∈ img_path :: rest /\ image_cache p !! x = None) as Hboth.
  { intros r' c' q Hqc Hqr. destruct (IH r' c' q) as (new & Hn & Hnew).
    exists (r1 ++ new)%list. rewrite Hn, Hqr, Hr1, <- app_assoc.
    split; [done|]. intros x [Hin|Hin]%elem_of_app.
    - destruct (Hfirst x Hin) as [-> ?]. split; [apply list_elem_of_here|done].
    - destruct (Hnew x Hin) as [? Hnone]. rewrite Hqc in Hnone.
      split; [by apply list_elem_of_further|].
      destruct (image_cache p !! x) as [pm|] eqn:Hx; [|done].
      by rewrite (lookup_weaken _ _ _ _ Hx Hsub) in Hnone. }
  destruct (isNull pixmap); [by apply Hboth|].
  case_bool_decide; by apply Hboth.
Qed.

(** X16: a pass calls the decoder only for paths of its list that have
    no cached thumbnail when the pass starts; a file with a cached
    thumbnail is never read again, and no file outside the list is
    read. *)
Theorem display_images_reads_uncached w p :
  exists new,
    reads (display_images w p) = (reads p ++ new)%list
    /\ forall x, x ∈ new ->
         x ∈ image_paths (image_viewer p) /\ image_cache p !! x = None.
Proof.
  unfold display_images.
  destruct (display_loop_reads_uncached w (image_paths (image_viewer p)) 0 0 p)
    as (new & Hreads & Hnew).
  exists new. split; [exact Hreads|]. intros x Hin. exact (Hnew x Hin).
Qed.

(** X17: a decoded image is stored scaled to the 1920 x 1080 box: the
    thumbnail is at least one pixel and at most the box in each direction,
    and one of its sides is exactly the side of the box, so that a smaller
    image is enlarged. The thumbnail is what the request returns and what
    the cache holds for the path. *)
Theorem thumbnail_fills_box w img_path p b :
  image_cache p !! img_path = None ->
  read_image w img_path = Image b ->
  (0 < width b)%Z -> (0 < height b)%Z ->
  exists b',
    (load_and_cache_image w img_path p).1 = Pixmap b'
    /\ image_cache (load_and_cache_image w img_path p).2 !! img_path
       = Some (Pixmap b')
    /\ (1 <= width b' <= 1920 /\ 1 <= height b' <= 1080)%Z
    /\ (width b' = 1920 \/ height b' = 1080)%Z
    /\ content b' = content b.
Proof.
  intros Hc Hr Hw Hh.
  destruct (load_and_cache_image_decode w img_path p b Hc Hr)
    as (b' & Hscaled & ->).
  exists b'. simpl. rewrite lookup_insert_eq.
  destruct (scaled_fits b b' Hw Hh Hscaled) as [Hfit Hcontent].
  repeat split; try done; try lia.
  revert Hscaled. unfold scaled, scaled_size.
  rewrite !bool_decide_eq_false_2 by lia.
  case_bool_decide; intros [= <-]; simpl; lia.
Qed.

Lemma thumbnail_fills_box_witness :
  exists b',
    (load_and_cache_image (Scenario.pics true) "/pics/a.png"
       MainWindow.init).1 = Pixmap b'
    /\ image_cache
         (load_and_cache_image (Scenario.pics true) "/pics/a.png"
            MainWindow.init).2 !! "/pics/a.png" = Some (Pixmap b')
    /\ (1 <= width b' <= 1920 /\ 1 <= height b' <= 1080)%Z
    /\ (width b' = 1920 \/ height b' = 1080)%Z
    /\ content b' = 1%N.
Proof.
  apply (thumbnail_fills_box (Scenario.pics true) "/pics/a.png"
           MainWindow.init {| width := 4000; height := 3000; content := 1 |}).
  - reflexivity.
  - reflexivity.
  - reflexivity.
  - reflexivity.
Defined.

End Grid.

(** ** What holds all along *)

Section Always.
Import ImageViewer.

Lemma handle_paths_cap int SCRIPT_DIR w e p p' :
  handle int SCRIPT_DIR w e p = Some p' ->
  length (image_paths (image_viewer p)) <= MAX_IMAGES_TO_DISPLAY ->
  length (image_paths (image_viewer p')) <= MAX_IMAGES_TO_DISPLAY.
Proof.
  destruct e as [f txt|folder_path clicks|n|n|file_path]; simpl.
  - intros [= <-]. unfold entry_edited. by case_match.
  - unfold browse_directory, load_images.
    case_bool_decide; [|by intros [= <-]].
    destruct (path_exists w folder_path); simpl; [|by intros [= <-]].
    destruct (find_matching_dataset_dirs w folder_path) as [dirs|];
      [|discriminate].
    simpl. case_bool_decide; intros [= <-]; [|simpl; lia].
    destruct clicks as [|i clicks]; [done|].
    rewrite show_directory_selector_dialog_eq by done. simpl. lia.
  - unfold loader_finished.
    destruct (loader_threads (image_viewer p) !! n) as [directory|];
      [|discriminate].
    simpl.
    destruct (ImageLoaderThread.run w directory) as [[paths flag]|] eqn:Hrun;
      [|discriminate].
    intros [= <-] _.
    match goal with
    | |- context [update_images int w paths flag ?q] =>
        destruct (update_images_widgets int w paths flag q)
          as (_ & _ & -> & _)
    end.
    by apply run_length in Hrun as [? _].
  - destruct (grid_layout (image_viewer p) !! n); [|discriminate].
    by intros [= <-].
  - intros [= <-]. unfold MainWindow.import_theme.
    case_bool_decide; [|done]. by destruct (read_text w file_path).
Qed.

Lemma step_paths_cap int SCRIPT_DIR p p' :
  step int SCRIPT_DIR p p' ->
  length (image_paths (image_viewer p)) <= MAX_IMAGES_TO_DISPLAY ->
  length (image_paths (image_viewer p')) <= MAX_IMAGES_TO_DISPLAY.
Proof.
  intros [w e q q' He|w img_path q|c q].
  - by eapply handle_paths_cap.
  - by destruct (load_and_cache_image_widgets w img_path q)
      as [(_ & _ & -> & _) _].
  - done.
Qed.

(** X18: the viewer never holds more than 50 paths, whatever has been
    chosen, delivered, typed or imported, and in whatever order. *)
Theorem image_paths_within_cap int SCRIPT_DIR p :
  reachable int SCRIPT_DIR p ->
  length (image_paths (image_viewer p)) <= 50.
Proof.
  unfold reachable. intros H.
  assert (length (image_paths (image_viewer MainWindow.init))
          <= MAX_IMAGES_TO_DISPLAY) as H0 by (simpl; lia).
  change 50 with MAX_IMAGES_TO_DISPLAY.
  revert H H0. generalize MainWindow.init as p0. intros p0 H H0.
  induction H as [|p1 p2 p3 H12 _ IH]; [done|].
  apply IH. by eapply step_paths_cap.
Qed.

Lemma image_paths_within_cap_witness :
  length (image_paths (image_viewer Cases.scanned)) <= 50.
Proof.
  apply (image_paths_within_cap Py.int "/app" Cases.scanned).
  apply (handle_all_steps Py.int "/app"
           [(Scenario.pics true, BrowseClicked "/pics" []);
            (Scenario.pics true, LoaderFinished 0)]).
  vm_compute. reflexivity.
Defined.

(** X19: the window's style sheet changes only when a theme is imported
    from a file that could be read, and then it is that file's text; no
    other event, and no failed or cancelled import, touches it. *)
Theorem only_import_changes_style int SCRIPT_DIR w e p p' :
  handle int SCRIPT_DIR w e p = Some p' ->
  styleSheet p' <> styleSheet p ->
  exists file_path,
    e = ImportThemeClicked file_path /\ file_path <> ""
    /\ read_text w file_path = inr (styleSheet p').
Proof.
  destruct e as [f txt|folder_path clicks|n|n|file_path]; simpl.
  - intros [= <-]. unfold entry_edited. by case_match.
  - intros (_ & _ & _ & _ & _ & ->)%browse_directory_viewer_only. done.
  - unfold loader_finished.
    destruct (loader_threads (image_viewer p) !! n) as [directory|];
      [|discriminate].
    simpl.
    destruct (ImageLoaderThread.run w directory) as [[paths flag]|];
      [|discriminate].
    intros [= <-].
    match goal with
    | |- context [update_images int w paths flag ?q] =>
        destruct (update_images_widgets int w paths flag q) as (_ & -> & _)
    end.
    done.
  - destruct (grid_layout (image_viewer p) !! n); [|discriminate].
    by intros [= <-].
  - intros [= <-]. unfold MainWindow.import_theme.
    case_bool_decide as Hf; [|done].
    destruct (read_text w file_path) as [err|css] eqn:Hread; [done|].
    intros _. by exists file_path.
Qed.

Lemma only_import_changes_style_witness :
  exists file_path,
    ImportThemeClicked "/app/themes/dark.css" = ImportThemeClicked file_path
    /\ file_path <> ""
    /\ read_text Scenario.themes file_path
       = inr (styleSheet
                (MainWindow.import_theme Scenario.themes
                   "/app/themes/dark.css" MainWindow.init)).
Proof.
  apply (only_import_changes_style Py.int "/app" Scenario.themes
           (ImportThemeClicked "/app/themes/dark.css") MainWindow.init).
  - reflexivity.
  - discriminate.
Defined.

(** What a request adds to the cache, it has read. *)
Lemma load_and_cache_image_from_reads w img_path p :
  exists new,
    reads (load_and_cache_image w img_path p).2 = (reads p ++ new)%list
    /\ forall x,
        is_Some (image_cache (load_and_cache_image w img_path p).2 !! x) ->
        is_Some (image_cache p !! x) \/ x ∈ new.
Proof.
  destruct (load_and_cache_image_cases w img_path p)
    as [(pm & _ & ->)|[(Hc & _ & ->)|(b' & Hc & _ & ->)]]; simpl.
  - exists []. rewrite app_nil_r. split; [done|]. by left.
  - exists [img_path]. split; [done|]. by left.
  - exists [img_path]. split; [done|]. intros x. rewrite lookup_insert.
    case_decide as Hx; [subst; right; apply list_elem_of_here|by left].
Qed.

Lemma display_loop_from_reads w paths row col p :
  exists new,
    reads (display_loop w paths row col p) = (reads p ++ new)%list
    /\ forall x,
        is_Some (image_cache (display_loop w paths row col p) !! x) ->
        is_Some (image_cache p !! x) \/ x ∈ new.
Proof.
  revert row col p. induction paths as [|img_path rest IH]; intros row col p.
  { exists []. rewrite app_nil_r. split; [done|]. by left. }
  simpl.
  destruct (load_and_cache_image_from_reads w img_path p) as (r1 & Hr1 & Hc1).
  destruct (load_and_cache_image w img_path p) as [pixmap p1].
  simpl in Hr1, Hc1.
  assert (forall r' c' q,
    image_cache q = image_cache p1 -> reads q = reads p1 ->
    exists new,
      reads (display_loop w rest r' c' q) = (reads p ++ new)%list
      /\ forall x,
          is_Some (image_cache (display_loop w rest r' c' q) !! x) ->
          is_Some (image_cache p !! x) \/ x ∈ new) as Hboth.
  { intros r' c' q Hqc Hqr. destruct (IH r' c' q) as (new & Hn & Hnew).
    exists (r1 ++ new)%list. rewrite Hn, Hqr, Hr1, <- app_assoc.
    split; [done|]. intros x Hx.
    destruct (Hnew x Hx) as [Hq|Hin].
    - rewrite Hqc in Hq. destruct (Hc1 x Hq) as [?|?]; [by left|].
      right. apply elem_of_app. by left.
    - right. apply elem_of_app. by right. }
  destruct (isNull pixmap); [by apply Hboth|].
  case_bool_decide; by apply Hboth.
Qed.

Lemma step_from_reads int SCRIPT_DIR p p' :
  step int SCRIPT_DIR p p' ->
  exists new,
    reads p' = (reads p ++ new)%list
    /\ forall x, is_Some (image_cache p' !! x) ->
         is_Some (image_cache p !! x) \/ x ∈ new.
Proof.
  assert (forall q q' : process,
            image_cache q' = image_cache q -> reads q' = reads q ->
            exists new,
              reads q' = (reads q ++ new)%list
              /\ forall x, is_Some (image_cache q' !! x) ->
                   is_Some (image_cache q !! x) \/ x ∈ new) as Hsame.
  { intros q q' Hc Hr. exists []. rewrite app_nil_r, Hc.
    split; [done|]. by left. }
  intros [w e q q' He|w img_path q|c q].
  - destruct e as [f txt|folder_path clicks|n|n|file_path]; simpl in He.
    + injection He as <-. unfold entry_edited.
      case_match; by apply Hsame.
    + apply browse_directory_viewer_only in He as (? & _ & ? & _).
      by apply Hsame.
    + unfold loader_finished in He.
      destruct (loader_threads (image_viewer q) !! n) as [directory|];
        [|discriminate].
      simpl in He.
      destruct (ImageLoaderThread.run w directory) as [[paths flag]|];
        [|discriminate].
      injection He as <-. rewrite update_images_eq.
      case_match; [by apply Hsame|].
      unfold display_images.
      match goal with
      | |- context [display_loop w ?l 0 0 ?q0] =>
          destruct (display_loop_from_reads w l 0 0 q0)
            as (new & Hn & Hnew)
      end.
      exists new. split; [exact Hn|exact Hnew].
    + destruct (grid_layout (image_viewer q) !! n); [|discriminate].
      injection He as <-. by apply Hsame.
    + injection He as <-. unfold MainWindow.import_theme.
      case_bool_decide; [|by apply Hsame].
      destruct (read_text w file_path); by apply Hsame.
  - apply load_and_cache_image_from_reads.
  - by apply Hsame.
Qed.

(** X20: the cache holds thumbnails only of files the process itself has
    decoded: every path with an entry is in the trace of decoder calls. *)
Theorem cached_paths_were_read int SCRIPT_DIR p path :
  reachable int SCRIPT_DIR p ->
  is_Some (image_cache p !! path) ->
  path ∈ reads p.
Proof.
  unfold reachable. intros H.
  assert (forall x, is_Some (image_cache MainWindow.init !! x) ->
            x ∈ reads MainWindow.init) as H0.
  { intros x. simpl. rewrite lookup_empty. by intros [? ?]. }
  revert H H0. generalize MainWindow.init as p0. intros p0 H H0.
  revert path. induction H as [p1|p1 p2 p3 H12 _ IH]; [done|].
  apply IH. destruct (step_from_reads _ _ _ _ H12) as (new & -> & Hnew).
  intros x [Hold|Hin]%Hnew; apply elem_of_app; [left; by apply H0|by right].
Qed.

Lemma cached_paths_were_read_witness :
  "/pics/b.png" ∈ reads Cases.scanned.
Proof.
  apply (cached_paths_were_read Py.int "/app" Cases.scanned "/pics/b.png").
  - apply (handle_all_steps Py.int "/app"
             [(Scenario.pics true, BrowseClicked "/pics" []);
              (Scenario.pics true, LoaderFinished 0)]).
    vm_compute. reflexivity.
  - vm_compute. eauto.
Defined.

End Always.
